(** * The settings model of Girder ([girder/models/setting.py])

    A shallow embedding of the [Setting] model: the key/value settings
    collection, its validator registry, the built-in validators and the
    index repair done by [reconnect], followed by the properties of the
    model that the specification states.

    Python values are embedded as a small universe of JSON-like data.
    Strings are byte strings (the [str] of Python 2.7, which the module
    targets through [six]): a character is a code point below 256, case
    conversion touches the ASCII letters only and white space is the six
    ASCII blanks; the [str] of Python 3 agrees on ASCII text without the
    separators [\x1c] to [\x1f].  The conversion [int] is the one of
    Python 3.6 and later, the most permissive: it reads digits grouped by
    underscores and ignores the next-line and no-break-space characters
    around a number as well as the blanks.  A floating point number is
    kept as the number it stands for, a multiple of a power of two, an
    infinity or not-a-number; no floating point arithmetic is done on
    it. *)

From Stdlib Require Import ZArith NArith String Ascii List Lia.
From stdpp Require Import base option list strings gmap sorting.

Local Open Scope string_scope.
Local Open Scope Z_scope.

(** ** Python values *)

Set Warnings "-register-all".

Module Py.

(** An [ObjectId] is twelve bytes compared as an unsigned big-endian
    number; only its order matters here. *)
Definition ObjectId := N.

(** A [float]: the number [m * 2 ^ e], an infinity or not-a-number. *)
Inductive Float : Type :=
| Finite (m e : Z)
| Infinite (negative : bool)
| NaN.

Inductive Value : Type :=
| VNone
| VBool (b : bool)
| VInt (n : Z)
| VFloat (f : Float)
| VStr (s : string)
| VObjectId (oid : ObjectId)
| VList (l : list Value)
| VDict (d : list (string * Value)).

(** Exceptions.  [ValidationException(message, field=None)] is the one
    error kind of the model; the others are the built-in exceptions the
    modelled statements can raise. *)
Inductive Exn : Type :=
| ValidationException (message : string) (field : option string)
| ValueError
| TypeError
| OverflowError
| AttributeError
| KeyError
| IndexError
| InvalidId
| OperationFailure
| DuplicateKeyError.

Inductive Result (A : Type) : Type :=
| Ok (a : A)
| Raise (e : Exn).
Arguments Ok {A} a.
Arguments Raise {A} e.

Definition rbind {A B} (r : Result A) (k : A -> Result B) : Result B :=
  match r with
  | Ok a => k a
  | Raise e => Raise e
  end.

(** *** Characters and strings *)

(** [str.isspace] on one byte: tab, line feed, vertical tab, form feed,
    carriage return and space. *)
Definition isspace (c : ascii) : bool :=
  let n := N_of_ascii c in
  ((9 <=? n) && (n <=? 13) || (n =? 32))%N.

Definition upper_char (c : ascii) : ascii :=
  let n := N_of_ascii c in
  if ((97 <=? n) && (n <=? 122))%N then ascii_of_N (n - 32) else c.

Definition lower_char (c : ascii) : ascii :=
  let n := N_of_ascii c in
  if ((65 <=? n) && (n <=? 90))%N then ascii_of_N (n + 32) else c.

Fixpoint smap (f : ascii -> ascii) (s : string) : string :=
  match s with
  | EmptyString => EmptyString
  | String c r => String (f c) (smap f r)
  end.

(** [s.upper()] and [s.lower()]. *)
Definition upper (s : string) : string := smap upper_char s.
Definition lower (s : string) : string := smap lower_char s.

(** [s.replace(a, b)] for one-character [a] and [b]. *)
Definition replace (a b : ascii) (s : string) : string :=
  smap (fun c => if Ascii.eqb c a then b else c) s.

(** [s.lstrip()], [s.rstrip()] and [s.strip()] with no argument. *)
Fixpoint lstrip (s : string) : string :=
  match s with
  | EmptyString => EmptyString
  | String c r => if isspace c then lstrip r else s
  end.

Fixpoint rstrip (s : string) : string :=
  match s with
  | EmptyString => EmptyString
  | String c r =>
      match rstrip r with
      | EmptyString => if isspace c then EmptyString else String c EmptyString
      | r' => String c r'
      end
  end.

Definition strip (s : string) : string := rstrip (lstrip s).

(** Splitting.  [words sep s] scans [s] once and returns the token that is
    still open at the head of [s] together with the tokens closed behind
    it; empty tokens are dropped, as [s.split()] does for runs of
    separators. *)
Definition push_word (w : string) (ws : list string) : list string :=
  match w with
  | EmptyString => ws
  | _ => w :: ws
  end.

Fixpoint words (sep : ascii -> bool) (s : string) : string * list string :=
  match s with
  | EmptyString => (EmptyString, [])
  | String c r =>
      let '(w, ws) := words sep r in
      if sep c then (EmptyString, push_word w ws) else (String c w, ws)
  end.

Definition split_by (sep : ascii -> bool) (s : string) : list string :=
  let '(w, ws) := words sep s in push_word w ws.

(** [s.split()] with no argument. *)
Definition split (s : string) : list string := split_by isspace s.

(** [sep.join(l)]. *)
Fixpoint join (sep : string) (l : list string) : string :=
  match l with
  | [] => EmptyString
  | [x] => x
  | x :: r => x ++ sep ++ join sep r
  end.

(** [list(OrderedDict.fromkeys(l))]: the keys are inserted one after the
    other; inserting a key that is already present leaves the order of the
    dictionary as it is. *)
Definition od_insert (d : list string) (k : string) : list string :=
  if bool_decide (k ∈ d) then d else d ++ [k].

Definition fromkeys (l : list string) : list string :=
  fold_left od_insert l [].

(** *** [int(x)] *)

(** The white space that [int] ignores around a number: the six blanks
    and, of the other code points below 256, next line ([\x85]) and
    no-break space ([\xa0]); the separators [\x1c] to [\x1f] are not
    ignored. *)
Definition int_space (c : ascii) : bool :=
  let n := N_of_ascii c in
  (isspace c || (n =? 133) || (n =? 160))%N.

Fixpoint int_lstrip (s : string) : string :=
  match s with
  | EmptyString => EmptyString
  | String c r => if int_space c then int_lstrip r else s
  end.

Fixpoint int_rstrip (s : string) : string :=
  match s with
  | EmptyString => EmptyString
  | String c r =>
      match int_rstrip r with
      | EmptyString =>
          if int_space c then EmptyString else String c EmptyString
      | r' => String c r'
      end
  end.

(** A decimal digit.  Of the code points below 256 only the ten ASCII
    digits have the decimal property that [int] reads. *)
Definition digit_of (c : ascii) : option Z :=
  let n := N_of_ascii c in
  if ((48 <=? n) && (n <=? 57))%N then Some (Z.of_N (n - 48)) else None.

(** The rest of a number after a digit: more digits, each of which one
    underscore may precede (the grouping that Python 3.6 and later read;
    a string with underscores is not a number for Python 2.7). *)
Fixpoint digits (acc : Z) (s : string) : option Z :=
  match s with
  | EmptyString => Some acc
  | String c r =>
      match digit_of c with
      | Some d => digits (10 * acc + d) r
      | None =>
          if Ascii.eqb c "_" then
            match r with
            | String c' r' =>
                match digit_of c' with
                | Some d => digits (10 * acc + d) r'
                | None => None
                end
            | EmptyString => None
            end
          else None
      end
  end.

Definition number (s : string) : option Z :=
  match s with
  | EmptyString => None
  | String c r =>
      match digit_of c with
      | Some d => digits d r
      | None => None
      end
  end.

(** [int(f)] for a finite float: the fraction is cut off, towards zero. *)
Definition truncate (m e : Z) : Z :=
  if 0 <=? e then m * 2 ^ e else Z.quot m (2 ^ (- e)).

(** [int(s)] for a string: surrounding white space is ignored, then an
    optional sign and at least one decimal digit must make up the rest. *)
Definition int_of_string (s : string) : option Z :=
  match int_rstrip (int_lstrip s) with
  | String "+" r => number r
  | String "-" r => Z.opp <$> number r
  | t => number t
  end.

(** [int(x)]: integers and booleans convert, a float is truncated
    ([OverflowError] for an infinity, [ValueError] for not-a-number),
    strings are parsed ([ValueError] when they are not a literal),
    everything else is a [TypeError]. *)
Definition int (x : Value) : Result Z :=
  match x with
  | VInt n => Ok n
  | VBool b => Ok (if b then 1 else 0)
  | VFloat (Finite m e) => Ok (truncate m e)
  | VFloat (Infinite _) => Raise OverflowError
  | VFloat NaN => Raise ValueError
  | VStr s =>
      match int_of_string s with
      | Some n => Ok n
      | None => Raise ValueError
      end
  | VNone | VObjectId _ | VList _ | VDict _ => Raise TypeError
  end.

(** [isinstance(x, six.string_types)] and [isinstance(x, dict)]. *)
Definition is_string (x : Value) : bool :=
  match x with VStr _ => true | _ => false end.

Definition is_dict (x : Value) : bool :=
  match x with VDict _ => true | _ => false end.

End Py.

Import Py.

(** ** The document store

    The generic document store ([Model] in [model_base.py] and the pymongo
    collection behind it) is a collaborator of the settings model.  A
    collection is the list of its documents in natural order together with
    its index catalogue, the dictionary that [index_information()]
    returns. *)

Module Store.

(** A setting document, the Python dict [{'_id': .., 'key': .., 'value': ..}].
    A document that was never saved has no ['_id']. *)
Record Doc : Type := mkDoc {
  _id : option ObjectId;
  key : string;
  value : Value
}.

Definition set_value (v : Value) (d : Doc) : Doc :=
  {| _id := _id d; key := key d; value := v |}.

Definition set_id (i : ObjectId) (d : Doc) : Doc :=
  {| _id := Some i; key := key d; value := value d |}.

(** One entry of [index_information()]: the indexed fields with their
    directions, of which there is at least one, and the [unique] option
    when the index was created with it. *)
Record IndexInfo : Type := mkIndex {
  first_field : string * Z;
  more_fields : list (string * Z);
  unique : option bool
}.

Record Collection : Type := mkCollection {
  documents : list Doc;
  indices : gmap string IndexInfo
}.

(** Statements run against the collection and may raise: a computation
    maps the collection to its outcome and the collection it leaves. *)
Definition M (A : Type) : Type := Collection -> Result A * Collection.

Definition ret {A} (a : A) : M A := fun c => (Ok a, c).

Definition raise {A} (e : Exn) : M A := fun c => (Raise e, c).

Definition bind {A B} (m : M A) (k : A -> M B) : M B :=
  fun c =>
    match m c with
    | (Ok a, c') => k a c'
    | (Raise e, c') => (Raise e, c')
    end.

Definition lift {A} (r : Result A) : M A := fun c => (r, c).

(** [try: m except E: h] for one exception class, told by [is_E]. *)
Definition try_except {A} (m : M A) (is_E : Exn -> bool) (h : M A) : M A :=
  fun c =>
    match m c with
    | (Raise e, c') => if is_E e then h c' else (Raise e, c')
    | r => r
    end.

Declare Scope store_scope.
Delimit Scope store_scope with store.
Notation "'let*' x ':=' m 'in' k" := (bind m (fun x => k))
  (at level 10, x name, m at level 100, k at level 200) : store_scope.
Notation "m ';;' k" := (bind m (fun _ => k))
  (at level 100, k at level 200, right associativity) : store_scope.
Local Open Scope store_scope.

(** [for x in l: body(x)]. *)
Fixpoint for_each {A} (l : list A) (body : A -> M unit) : M unit :=
  match l with
  | [] => ret tt
  | x :: r => body x ;; for_each r body
  end.

Definition has_key (k : string) (d : Doc) : bool := String.eqb (key d) k.

Definition has_id (i : ObjectId) (d : Doc) : bool :=
  match _id d with
  | Some j => N.eqb j i
  | None => false
  end.

(** Modelled from the spec: [findOne(filter)] of the document store, whose
    code ([model_base.py]) is not part of the sources; it yields the first
    document with the given ['key'], or [None]. *)
Definition findOne (k : string) : M (option Doc) :=
  fun c => (Ok (List.find (has_key k) (documents c)), c).

(** Modelled from the spec: [find(filter)] of the document store, the
    sequence of all documents with the given ['key']. *)
Definition find (k : string) : M (list Doc) :=
  fun c => (Ok (List.filter (has_key k) (documents c)), c).

(** [collection.delete_one({'_id': i})]: the first document with that
    identity goes, if there is one. *)
Fixpoint remove_first (i : ObjectId) (l : list Doc) : list Doc :=
  match l with
  | [] => []
  | d :: r => if has_id i d then r else d :: remove_first i r
  end.

Definition delete_one (i : ObjectId) : M unit :=
  fun c => (Ok tt, mkCollection (remove_first i (documents c)) (indices c)).

(** Modelled from the spec: [remove(document)] of the document store; the
    document is deleted by its identity. *)
Definition remove (d : Doc) : M unit :=
  match _id d with
  | Some i => delete_one i
  | None => raise KeyError
  end.

(** The identity given to a new document: larger than every one in use. *)
Definition fresh_id (l : list Doc) : ObjectId :=
  N.succ (fold_right N.max 0%N (omap _id l)).

Fixpoint replace_first (i : ObjectId) (d : Doc) (l : list Doc) : option (list Doc) :=
  match l with
  | [] => None
  | x :: r =>
      if has_id i x then Some (d :: r)
      else cons x <$> replace_first i d r
  end.

(** [collection.insert_one(d)] and
    [collection.replace_one({'_id': i}, d, upsert=True)]. *)
Definition insert_one (d : Doc) : M Doc :=
  fun c =>
    let d' := set_id (fresh_id (documents c)) d in
    (Ok d', mkCollection (documents c ++ [d']) (indices c)).

Definition replace_one (i : ObjectId) (d : Doc) : M Doc :=
  fun c =>
    match replace_first i d (documents c) with
    | Some l => (Ok d, mkCollection l (indices c))
    | None => (Ok d, mkCollection (documents c ++ [d]) (indices c))
    end.

(** [collection.index_information()]. *)
Definition index_information : M (gmap string IndexInfo) :=
  fun c => (Ok (indices c), c).

(** [collection.drop_index(name)]; dropping an index that does not exist
    is an [OperationFailure]. *)
Definition drop_index (name : string) : M unit :=
  fun c =>
    match indices c !! name with
    | Some _ => (Ok tt, mkCollection (documents c) (delete name (indices c)))
    | None => (Raise OperationFailure, c)
    end.

(** One row of the aggregation in [reconnect]: the documents of one key
    with the set of their identities and their number. *)
Record KeyGroup : Type := mkGroup {
  group_key : string;
  ids : list ObjectId;
  count : nat
}.

Definition group_of (l : list Doc) (k : string) : KeyGroup :=
  let members := List.filter (has_key k) l in
  {| group_key := k;
     ids := remove_dups (omap _id members);
     count := length members |}.

(** [collection.aggregate([{'$group': ..}, {'$match': {'count': {'$gt': 1}}}])]:
    one row per key, in order of first appearance, of which the rows with
    more than one document are kept. *)
Definition aggregate_duplicates : M (list KeyGroup) :=
  fun c =>
    let l := documents c in
    (Ok (List.filter (fun g => Nat.ltb 1 (count g))
           (List.map (group_of l) (fromkeys (List.map key l)))), c).

Definition key_index : IndexInfo :=
  {| first_field := ("key", 1); more_fields := []; unique := Some true |}.

(** [collection.create_index('key', unique=True)]: the index is entered in
    the catalogue under its generated name; building it fails when two
    documents share a key. *)
Definition create_index_key_unique : M unit :=
  fun c =>
    if bool_decide (NoDup (List.map key (documents c)))
    then (Ok tt, mkCollection (documents c) (<["key_1" := key_index]> (indices c)))
    else (Raise DuplicateKeyError, c).

End Store.

Import Store.
Local Open Scope store_scope.

(** ** The settings model *)

Module Setting.

(** A double quote, for the messages that carry one. *)
Definition dq : string := String (ascii_of_N 34) EmptyString.

Definition quoted (s : string) : string := dq ++ s ++ dq.

(** A validator receives the document, normalizes its ['value'] in place
    and returns, or raises. *)
Definition Validator : Type := Doc -> Result Doc.

(** *** Built-in validators *)

(** [x in (..)] against a tuple of string literals. *)
Definition in_strings (x : string) (l : list string) : bool :=
  existsb (String.eqb x) l.

(** [doc['value'].lower()]: only strings have the method. *)
Definition value_lower (x : Value) : Result string :=
  match x with
  | VStr s => Ok (lower s)
  | _ => Raise AttributeError
  end.

Definition validateCoreAddToGroupPolicy : Validator := fun doc =>
  rbind (value_lower (value doc)) (fun s =>
  let doc := set_value (VStr s) doc in
  if negb (in_strings s ["never"; "noadmin"; "nomod"; "yesadmin"; "yesmod"; ""])
  then Raise (ValidationException
         ("Add to group policy must be one of " ++ quoted "never" ++ ", "
          ++ quoted "noadmin" ++ ", " ++ quoted "nomod" ++ ", "
          ++ quoted "yesadmin" ++ ", or " ++ quoted "yesmod" ++ ".")
         (Some "value"))
  else Ok doc).

Definition validateCoreCookieLifetime : Validator := fun doc =>
  let failure :=
    Raise (ValidationException "Cookie lifetime must be an integer > 0."
             (Some "value")) in
  match int (value doc) with
  | Ok n =>
      let doc := set_value (VInt n) doc in
      if 0 <? n then Ok doc else failure
  | Raise ValueError => failure
  | Raise e => Raise e
  end.

Definition validateCoreCorsAllowMethods : Validator := fun doc =>
  match value doc with
  | VStr s =>
      let methods := split (upper (strip (replace "," " " s))) in
      let methods := fromkeys methods in
      Ok (set_value (VStr (join ", " methods)) doc)
  | _ =>
      Raise (ValidationException
        "Allowed methods must be a comma-separated list or an empty string."
        (Some "value"))
  end.

(** [s.rstrip(a)] for a one-character [a]. *)
Fixpoint rstrip_char (a : ascii) (s : string) : string :=
  match s with
  | EmptyString => EmptyString
  | String c r =>
      match rstrip_char a r with
      | EmptyString =>
          if Ascii.eqb c a then EmptyString else String c EmptyString
      | r' => String c r'
      end
  end.

Definition validateCoreCorsAllowHeaders : Validator := fun doc =>
  match value doc with
  | VStr s =>
      let headers := split (strip (replace "," " " s)) in
      let headers := fromkeys headers in
      Ok (set_value (VStr (join ", " headers)) doc)
  | _ =>
      Raise (ValidationException
        "Allowed headers must be a comma-separated list or an empty string."
        (Some "value"))
  end.

Definition validateCoreCorsAllowOrigin : Validator := fun doc =>
  match value doc with
  | VStr s =>
      let origins := split (strip (replace "," " " s)) in
      let origins := List.map (rstrip_char "/") origins in
      let origins := fromkeys origins in
      Ok (set_value (VStr (join ", " origins)) doc)
  | _ =>
      Raise (ValidationException
        ("Allowed origin must be a comma-separated list of base urls "
         ++ "or * or an empty string.")
        (Some "value"))
  end.

(** The truth value of [x], as [not x] takes it: [None], [False], zero
    and the empty string, list and dictionary are false. *)
Definition truthy (x : Value) : bool :=
  match x with
  | VNone => false
  | VBool b => b
  | VInt n => negb (n =? 0)
  | VFloat (Finite m _) => negb (m =? 0)
  | VFloat _ => true
  | VStr s => negb (String.eqb s EmptyString)
  | VObjectId _ => true
  | VList l => match l with [] => false | _ => true end
  | VDict d => match d with [] => false | _ => true end
  end.

Definition validateCoreEmailFromAddress : Validator := fun doc =>
  if negb (truthy (value doc))
  then Raise (ValidationException "Email from address must not be blank."
                (Some "value"))
  else Ok doc.

Definition validateCoreEmailHost : Validator := fun doc =>
  match value doc with
  | VStr s => Ok (set_value (VStr (strip s)) doc)
  | _ => Raise (ValidationException "Email host must be a string."
                  (Some "value"))
  end.

Definition validateCoreRegistrationPolicy : Validator := fun doc =>
  rbind (value_lower (value doc)) (fun s =>
  let doc := set_value (VStr s) doc in
  if negb (in_strings s ["open"; "closed"; "approve"])
  then Raise (ValidationException
         ("Registration policy must be " ++ quoted "open" ++ ", "
          ++ quoted "closed" ++ ", or " ++ quoted "approve" ++ ".")
         (Some "value"))
  else Ok doc).

Definition validateCoreEmailVerification : Validator := fun doc =>
  rbind (value_lower (value doc)) (fun s =>
  let doc := set_value (VStr s) doc in
  if negb (in_strings s ["required"; "optional"; "disabled"])
  then Raise (ValidationException
         ("Email verification must be " ++ quoted "required" ++ ", "
          ++ quoted "optional" ++ ", or " ++ quoted "disabled" ++ ".")
         (Some "value"))
  else Ok doc).

Definition validateCoreSmtpHost : Validator := fun doc =>
  if negb (truthy (value doc))
  then Raise (ValidationException "SMTP host must not be blank."
                (Some "value"))
  else Ok doc.

Definition validateCoreSmtpPort : Validator := fun doc =>
  let failure :=
    Raise (ValidationException "SMTP port must be an integer > 0."
             (Some "value")) in
  match int (value doc) with
  | Ok n =>
      let doc := set_value (VInt n) doc in
      if 0 <? n then Ok doc else failure
  | Raise ValueError => failure
  | Raise e => Raise e
  end.

(** [x in (..)] for a value [x] against string literals: only an equal
    string is found. *)
Definition value_in (x : Value) (l : list string) : bool :=
  match x with
  | VStr s => in_strings s l
  | _ => false
  end.

Definition validateCoreSmtpEncryption : Validator := fun doc =>
  if negb (value_in (value doc) ["none"; "starttls"; "ssl"])
  then Raise (ValidationException
         ("SMTP encryption must be one of " ++ quoted "none" ++ ", "
          ++ quoted "starttls" ++ ", or " ++ quoted "ssl" ++ ".")
         (Some "value"))
  else Ok doc.

Definition validateCoreSmtpUsername : Validator := fun doc => Ok doc.

Definition validateCoreSmtpPassword : Validator := fun doc => Ok doc.

Definition validateCoreUploadMinimumChunkSize : Validator := fun doc =>
  let failure :=
    Raise (ValidationException
             "Upload minimum chunk size must be an integer >= 0."
             (Some "value")) in
  match int (value doc) with
  | Ok n =>
      let doc := set_value (VInt n) doc in
      if 0 <=? n then Ok doc else failure
  | Raise ValueError => failure
  | Raise e => Raise e
  end.

Definition validateCoreUserDefaultFolders : Validator := fun doc =>
  if negb (value_in (value doc) ["public_private"; "none"])
  then Raise (ValidationException
         ("User default folders must be either " ++ quoted "public_private"
          ++ " or " ++ quoted "none" ++ ".")
         (Some "value"))
  else Ok doc.

(** Dictionaries of a JSON value: lookup and item assignment. *)
Fixpoint dict_get (d : list (string * Value)) (k : string) : option Value :=
  match d with
  | [] => None
  | (k', v) :: r => if String.eqb k' k then Some v else dict_get r k
  end.

Fixpoint dict_set (d : list (string * Value)) (k : string) (v : Value)
  : list (string * Value) :=
  match d with
  | [] => [(k, v)]
  | (k', v') :: r =>
      if String.eqb k' k then (k, v) :: r else (k', v') :: dict_set r k v
  end.

Section CollectionCreatePolicy.

(** [ModelImporter.model(name).load(id, force=True, exc=True)], which
    raises when the entity does not exist, and the constructor
    [ObjectId(x)] of [bson]. *)
Variable load : string -> Value -> Result unit.
Variable ObjectId_of : Value -> Result ObjectId.

(** The loop [for i, x in enumerate(l): load(x); l[i] = ObjectId(l[i])]
    over a list. *)
Fixpoint normalize_ids (model : string) (l : list Value) : Result (list Value) :=
  match l with
  | [] => Ok []
  | x :: r =>
      rbind (load model x) (fun _ =>
      rbind (ObjectId_of x) (fun oid =>
      rbind (normalize_ids model r) (fun r' =>
      Ok (VObjectId oid :: r'))))
  end.

(** The same loop over whatever [value.get(field, ())] returns: a list
    is rewritten in place; a string or a dictionary is iterated too, and
    the first round then fails at the item access or assignment; other
    values are not iterable. *)
Definition normalize_field (model field : string) (d : list (string * Value))
  : Result (list (string * Value)) :=
  match dict_get d field with
  | None => Ok d
  | Some (VList l) =>
      rbind (normalize_ids model l) (fun l' => Ok (dict_set d field (VList l')))
  | Some (VStr EmptyString) | Some (VDict []) => Ok d
  | Some (VStr (String c _)) =>
      let x := VStr (String c EmptyString) in
      rbind (load model x) (fun _ =>
      rbind (ObjectId_of x) (fun _ => Raise TypeError))
  | Some (VDict ((k, _) :: _)) =>
      rbind (load model (VStr k)) (fun _ => Raise KeyError)
  | Some _ => Raise TypeError
  end.

Definition validateCoreCollectionCreatePolicy : Validator := fun doc =>
  match value doc with
  | VDict d =>
      rbind (normalize_field "group" "groups" d) (fun d =>
      rbind (normalize_field "user" "users" d) (fun d =>
      let d := dict_set d "open"
                 (default (VBool false) (dict_get d "open")) in
      Ok (set_value (VDict d) doc)))
  | _ =>
      Raise (ValidationException
        "Collection creation policy must be a JSON object." None)
  end.

End CollectionCreatePolicy.

(** *** The model *)

Section Model.

(** [SettingDefault.defaults] of [constants.py] and the two tables of
    [setting_utilities]: [getValidator(key)] and
    [getDefaultFunction(key)], each [None] for a key without entry. *)
Variable defaults : gmap string Value.
Variable getValidator : string -> option Validator.
Variable getDefaultFunction : string -> option (unit -> Value).

Definition validate (doc : Doc) : Result Doc :=
  let key := key doc in
  match getValidator key with
  | Some validator => rbind (validator doc) (fun doc => Ok doc)
  | None =>
      Raise (ValidationException
        ("Invalid setting key " ++ quoted key ++ ".") (Some "key"))
  end.

Definition getDefault (key : string) : Value :=
  if bool_decide (key ∈ dom defaults) then
    default VNone (defaults !! key)
  else
    match getDefaultFunction key with
    | Some fn => fn tt
    | None => VNone
    end.

(** An argument as the operator [is] sees it.  A string literal of the
    program is an interned constant: the same literal, wherever it is
    written, is one object, which [Interned] stands for.  Every other
    object, a string put together at run time among them, is [Built]
    with its value, and is no interned constant even when its value
    equals one. *)
Inductive Object : Type :=
| Interned (s : string)
| Built (v : Value).

Definition object_value (o : Object) : Value :=
  match o with
  | Interned s => VStr s
  | Built v => v
  end.

(** The default of the parameter [default] of [get], the constant
    ['__default__'], and the test [default is '__default__'], which only
    that very object passes. *)
Definition no_default : Object := Interned "__default__".

Definition is_no_default (x : Object) : bool :=
  match x with
  | Interned s => String.eqb s "__default__"
  | Built _ => false
  end.

Definition get (key : string) (default : Object) : M Value :=
  let* setting := findOne key in
  match setting with
  | None =>
      let default :=
        if is_no_default default
        then getDefault key else object_value default in
      ret default
  | Some setting => ret (value setting)
  end.

(** Modelled from the spec: [save(document)] of the document store
    ([Model.save] in [model_base.py], not part of the sources): the
    document goes through [validate] before it is persisted, then is
    inserted under a new identity when it has none and replaces the
    stored document of its identity otherwise; the persisted document is
    returned. *)
Definition save (doc : Doc) : M Doc :=
  let* doc := lift (validate doc) in
  match _id doc with
  | None => insert_one doc
  | Some i => replace_one i doc
  end.

Definition set (key : string) (value : Value) : M Doc :=
  let* setting := findOne key in
  let setting :=
    match setting with
    | None => mkDoc None key value
    | Some setting => set_value value setting
    end in
  save setting.

Definition unset (key : string) : M unit :=
  let* settings := find key in
  for_each settings remove.

End Model.

(** *** Index repair *)

(** Modelled from the spec: [Model.reconnect] of [model_base.py], not part
    of the sources.  It re-opens the collection and builds the indices the
    model asked for with [ensureIndices]; [initialize] asks for none, so
    the collection is left as it is. *)
Definition Model_reconnect : M unit := ret tt.

Definition is_OperationFailure (e : Exn) : bool :=
  match e with OperationFailure => true | _ => false end.

(** [indices[index].get('unique')] as a condition. *)
Definition is_unique (info : IndexInfo) : bool :=
  match unique info with
  | Some b => b
  | None => false
  end.

(** [indices[index]['key'][0][0] == 'key']. *)
Definition on_key (info : IndexInfo) : bool :=
  String.eqb (fst (first_field info)) "key".

(** The loop over the catalogue: it stops at the first unique index on
    ['key'] and collects the names of the other indices on ['key'] met so
    far.  The result is [(hasUniqueKeyIndex, presentKeyIndices)]. *)
Fixpoint scan_indices (l : list (string * IndexInfo)) (presentKeyIndices : list string)
  : bool * list string :=
  match l with
  | [] => (false, presentKeyIndices)
  | (index, info) :: r =>
      if on_key info then
        if is_unique info then (true, presentKeyIndices)
        else scan_indices r (presentKeyIndices ++ [index])
      else scan_indices r presentKeyIndices
  end.

(** [sorted(ids)]. *)
Definition sorted (l : list ObjectId) : list ObjectId := merge_sort N.le l.

Definition reconnect : M unit :=
  Model_reconnect ;;
  let* indices :=
    try_except index_information is_OperationFailure (ret ∅) in
  let '(hasUniqueKeyIndex, presentKeyIndices) :=
    scan_indices (map_to_list indices) [] in
  if negb hasUniqueKeyIndex then
    for_each presentKeyIndices drop_index ;;
    let* duplicates := aggregate_duplicates in
    for_each duplicates (fun duplicate =>
      for_each (tail (sorted (ids duplicate))) delete_one) ;;
    create_index_key_unique
  else ret tt.

End Setting.

Import Setting.

(** ** Invariant of the collection and sample data *)

(** MongoDB gives every stored document an ['_id'] and keeps the
    identities distinct. *)
Definition stored (l : list Doc) : Prop :=
  NoDup (List.map _id l) /\ Forall (fun d => is_Some (_id d)) l.

#[global] Instance stored_dec (l : list Doc) : Decision (stored l).
Proof. unfold stored. apply _. Defined.

(** What a run of [delete_one] over the identities [dels] leaves. *)
Definition delete_all (dels : list ObjectId) (l : list Doc) : list Doc :=
  List.filter (fun d => forallb (fun i => negb (has_id i d)) dels) l.

(** What a run of [drop_index] over [names] leaves of the catalogue. *)
Definition drop_all (names : list string) (ix : gmap string IndexInfo)
  : gmap string IndexInfo :=
  fold_left (fun m n => delete n m) names ix.

(** The catalogue has a unique index on ['key'], as [reconnect] tells it:
    the first field is ['key'] and [unique] is set. *)
Definition has_unique_key_index (ix : gmap string IndexInfo) : Prop :=
  exists name info,
    ix !! name = Some info /\ on_key info = true /\ is_unique info = true.

(** The identities that [reconnect] deletes: of every key stored more
    than once, all but the smallest. *)
Definition duplicate_ids (l : list Doc) : list ObjectId :=
  concat (List.map (fun g => tail (sorted (ids g)))
            (List.filter (fun g => Nat.ltb 1 (count g))
               (List.map (group_of l) (fromkeys (List.map key l))))).

(** The normal form of a list of CORS methods as the specification words
    it: the string is cut at commas and white space, the tokens are put
    in upper case, a token seen before is dropped, and the rest is joined
    with a comma and a space. *)
Definition is_separator (c : ascii) : bool := Ascii.eqb c "," || isspace c.

Fixpoint dedup (l : list string) : list string :=
  match l with
  | [] => []
  | x :: r => x :: List.filter (fun y => negb (String.eqb y x)) (dedup r)
  end.

Definition normalize_methods (s : string) : string :=
  join ", " (dedup (List.map upper (split_by is_separator s))).

(** The document that [set] hands to [save]: the stored document of the
    key with its value overwritten, or a new one without ['_id']. *)
Definition candidate (k : string) (v : Value) (c : Collection) : Doc :=
  match List.find (has_key k) (documents c) with
  | None => mkDoc None k v
  | Some setting => set_value v setting
  end.

(** A validator that touches nothing but the ['value'] of the document. *)
Definition value_only (validator : Validator) : Prop :=
  forall d d', validator d = Ok d' -> key d' = key d /\ _id d' = _id d.

(** The normal forms of the two other CORS lists: cut at commas and white
    space, first occurrences only, joined with a comma and a space; the
    origins lose their trailing slashes before duplicates are told. *)
Definition normalize_headers (s : string) : string :=
  join ", " (dedup (split_by is_separator s)).

Definition normalize_origin (s : string) : string :=
  join ", " (dedup (List.map (rstrip_char "/") (split_by is_separator s))).

(** An identifier of the collection-creation policy that was looked up
    and converted: the entity exists and [y] is its [ObjectId]. *)
Definition resolved (load : string -> Value -> Result unit)
  (ObjectId_of : Value -> Result ObjectId) (model : string) (x y : Value)
  : Prop :=
  load model x = Ok tt /\ exists oid, ObjectId_of x = Ok oid /\ y = VObjectId oid.

(** A token as a split leaves it: not empty and free of separators. *)
Fixpoint clean (s : string) : bool :=
  match s with
  | EmptyString => true
  | String c r => negb (is_separator c) && clean r
  end.

Definition token (s : string) : bool :=
  negb (String.eqb s EmptyString) && clean s.

(** A registry with three of the core settings and a small collection,
    used to run the model on concrete inputs. *)

Module Sample.

Definition defaults : gmap string Value :=
  <["core.cookie_lifetime" := VInt 180]>
    (<["core.add_to_group_policy" := VStr "never"]> ∅).

Definition getValidator (key : string) : option Validator :=
  if String.eqb key "core.cookie_lifetime" then Some validateCoreCookieLifetime
  else if String.eqb key "core.add_to_group_policy" then Some validateCoreAddToGroupPolicy
  else if String.eqb key "core.cors.allow_methods" then Some validateCoreCorsAllowMethods
  else None.

Definition getDefaultFunction (key : string) : option (unit -> Value) :=
  if String.eqb key "core.email_host" then Some (fun _ => VStr "http://localhost")
  else None.

Definition id_index : IndexInfo :=
  {| first_field := ("_id", 1); more_fields := []; unique := None |}.

Definition old_key_index : IndexInfo :=
  {| first_field := ("key", 1); more_fields := []; unique := None |}.

Definition empty : Collection := mkCollection [] (<["_id_" := id_index]> ∅).

Definition one : Collection :=
  mkCollection
    [mkDoc (Some 7%N) "core.cookie_lifetime" (VInt 3600)]
    (<["_id_" := id_index]> ∅).

(** An old install: a plain index on ['key'] and a key stored three
    times. *)
Definition old : Collection :=
  mkCollection
    [mkDoc (Some 5%N) "core.cookie_lifetime" (VInt 1);
     mkDoc (Some 2%N) "core.add_to_group_policy" (VStr "never");
     mkDoc (Some 3%N) "core.cookie_lifetime" (VInt 3);
     mkDoc (Some 1%N) "core.cookie_lifetime" (VInt 4)]
    (<["key_1" := old_key_index]> (<["_id_" := id_index]> ∅)).

Definition repaired : Collection :=
  mkCollection (documents one) (<["key_1" := key_index]> (indices one)).

End Sample.

(** * Properties *)

(** ** The stored documents *)

Section StoreFacts.

Lemma stored_cons d l : stored (d :: l) -> stored l.
Proof.
  intros [Hn Hs]. split.
  - simpl in Hn. apply NoDup_cons in Hn. tauto.
  - apply Forall_inv_tail in Hs. exact Hs.
Qed.

Lemma has_id_true i d : has_id i d = true <-> _id d = Some i.
Proof.
  unfold has_id. destruct (_id d) as [j|]; split; intros H; try discriminate.
  - apply N.eqb_eq in H. congruence.
  - inversion H. apply N.eqb_refl.
Qed.

Lemma has_key_true k d : has_key k d = true <-> key d = k.
Proof. unfold has_key. apply String.eqb_eq. Qed.

Lemma filter_all {A} (p : A -> bool) (l : list A) :
  (forall x, In x l -> p x = true) -> List.filter p l = l.
Proof.
  induction l as [|x r IH]; simpl; intros H; [reflexivity|].
  rewrite (H x) by auto. f_equal. apply IH. intros y Hy. apply H. auto.
Qed.

Lemma filter_sub {A} (p : A -> bool) (l : list A) x :
  In x (List.filter p l) -> In x l.
Proof. intros H. apply filter_In in H. tauto. Qed.

(** Deleting by identity takes out exactly the documents of that
    identity. *)
Lemma remove_first_filter i l :
  stored l -> remove_first i l = List.filter (fun d => negb (has_id i d)) l.
Proof.
  induction l as [|d r IH]; intros Hs; [reflexivity|].
  simpl. destruct (has_id i d) eqn:E; simpl.
  - symmetry. apply filter_all. intros x Hx.
    destruct (has_id i x) eqn:Ex; [|reflexivity].
    apply has_id_true in E. apply has_id_true in Ex.
    destruct Hs as [Hn _]. simpl in Hn. apply NoDup_cons in Hn.
    destruct Hn as [Hn _]. exfalso. apply Hn.
    rewrite list_elem_of_In, E, <- Ex. apply in_map. exact Hx.
  - f_equal. apply IH. eapply stored_cons. exact Hs.
Qed.

Lemma stored_filter p l : stored l -> stored (List.filter p l).
Proof.
  induction l as [|d r IH]; intros Hs; [exact Hs|].
  pose proof (IH (stored_cons _ _ Hs)) as [Hn Hf].
  simpl. destruct (p d); [|split; assumption].
  destruct Hs as [Hn' Hf']. split.
  - simpl. apply NoDup_cons. split; [|exact Hn].
    simpl in Hn'. apply NoDup_cons in Hn'. destruct Hn' as [Hd _].
    intros Hin. apply Hd. rewrite list_elem_of_In in *.
    apply in_map_iff in Hin. destruct Hin as (x & Hx & Hin).
    apply in_map_iff. exists x. split; [exact Hx|]. eapply filter_sub, Hin.
  - constructor; [|exact Hf]. apply Forall_inv in Hf'. exact Hf'.
Qed.

(** Two stored documents of one identity are the same document. *)
Lemma stored_id_inj l d d' :
  stored l -> In d l -> In d' l -> _id d = _id d' -> d = d'.
Proof.
  induction l as [|x r IH]; intros Hs Hd Hd' E; [destruct Hd|].
  pose proof Hs as [Hn _]. simpl in Hn. apply NoDup_cons in Hn.
  destruct Hn as [Hx _].
  destruct Hd as [->|Hd], Hd' as [->|Hd'].
  - reflexivity.
  - exfalso. apply Hx. rewrite list_elem_of_In, E. apply in_map, Hd'.
  - exfalso. apply Hx. rewrite list_elem_of_In, <- E. apply in_map, Hd.
  - apply IH; auto. eapply stored_cons, Hs.
Qed.

Lemma delete_all_nil l : delete_all [] l = l.
Proof. apply filter_all. reflexivity. Qed.

Lemma filter_twice {A} (p q : A -> bool) (l : list A) :
  List.filter q (List.filter p l) = List.filter (fun x => p x && q x) l.
Proof.
  induction l as [|x r IH]; [reflexivity|].
  simpl. destruct (p x); simpl; [destruct (q x)|]; rewrite IH; reflexivity.
Qed.

Lemma delete_all_cons i dels l :
  delete_all (i :: dels) l =
  delete_all dels (List.filter (fun d => negb (has_id i d)) l).
Proof. unfold delete_all. rewrite filter_twice. reflexivity. Qed.

Lemma delete_all_app a b l :
  delete_all (a ++ b) l = delete_all b (delete_all a l).
Proof.
  revert l. induction a as [|i a IH]; intros l; simpl.
  - rewrite delete_all_nil. reflexivity.
  - rewrite !delete_all_cons. apply IH.
Qed.

Lemma for_each_delete_one dels docs ix :
  stored docs ->
  for_each dels delete_one (mkCollection docs ix) =
  (Ok tt, mkCollection (delete_all dels docs) ix).
Proof.
  revert docs. induction dels as [|i dels IH]; intros docs Hs; simpl.
  - rewrite delete_all_nil. reflexivity.
  - unfold bind at 1. simpl. rewrite remove_first_filter by exact Hs.
    rewrite IH by (apply stored_filter, Hs).
    rewrite delete_all_cons. reflexivity.
Qed.

Lemma in_delete_all dels l d :
  In d (delete_all dels l) <->
  In d l /\ forall i, In i dels -> _id d <> Some i.
Proof.
  unfold delete_all. rewrite filter_In, forallb_forall.
  split; intros [H1 H2]; split; try exact H1; intros i Hi.
  - specialize (H2 i Hi). intros E. apply has_id_true in E.
    rewrite E in H2. discriminate.
  - destruct (has_id i d) eqn:E; [|reflexivity].
    apply has_id_true in E. exfalso. exact (H2 i Hi E).
Qed.

End StoreFacts.

(** ** [unset] *)

Section UnsetFacts.

Lemma for_each_remove l c :
  Forall (fun d => is_Some (_id d)) l ->
  for_each l remove c = for_each (omap _id l) delete_one c.
Proof.
  revert c. induction l as [|d r IH]; intros c Hl; [reflexivity|].
  pose proof (Forall_inv Hl) as [i Hi].
  apply Forall_inv_tail in Hl.
  simpl. rewrite Hi. simpl. unfold remove, bind. rewrite Hi.
  simpl. apply IH, Hl.
Qed.

Lemma in_omap_id i (l : list Doc) :
  In i (omap _id l) <-> exists d, In d l /\ _id d = Some i.
Proof.
  rewrite <- list_elem_of_In, list_elem_of_omap.
  split; intros (d & Hd & E); exists d; split; try exact E;
    apply list_elem_of_In; exact Hd.
Qed.

(** [unset] leaves the documents of the other keys, in their order. *)
Lemma unset_run k c :
  stored (documents c) ->
  unset k c =
  (Ok tt, mkCollection
            (List.filter (fun d => negb (has_key k d)) (documents c))
            (indices c)).
Proof.
  intros Hs. destruct c as [docs ix]. simpl in *.
  unfold unset, bind, find. simpl.
  rewrite for_each_remove.
  2:{ destruct Hs as [_ Hf]. rewrite List.Forall_forall in *.
      intros x Hx. apply Hf. eapply filter_sub, Hx. }
  rewrite for_each_delete_one by exact Hs.
  f_equal. f_equal. unfold delete_all. apply filter_ext_in.
  intros d Hd. destruct (has_key k d) eqn:Ek; simpl.
  - destruct Hs as [_ Hf]. rewrite List.Forall_forall in Hf.
    destruct (Hf d Hd) as [i Hi].
    apply not_true_is_false. intros Hall.
    rewrite forallb_forall in Hall. specialize (Hall i).
    assert (Hin : In i (omap _id (List.filter (has_key k) docs))).
    { apply in_omap_id. exists d. split; [|exact Hi].
      apply filter_In. auto. }
    specialize (Hall Hin). apply has_id_true in Hi.
    rewrite Hi in Hall. discriminate.
  - apply forallb_forall. intros i Hin.
    apply in_omap_id in Hin. destruct Hin as (d' & Hd' & Hi).
    apply filter_In in Hd'. destruct Hd' as [Hd' Ek'].
    destruct (has_id i d) eqn:E; [|reflexivity].
    apply has_id_true in E.
    assert (d = d') by (eapply stored_id_inj; eauto; congruence).
    subst d'. congruence.
Qed.

Lemma find_none_filter k (l : list Doc) :
  List.find (has_key k) (List.filter (fun d => negb (has_key k d)) l) = None.
Proof.
  induction l as [|d r IH]; [reflexivity|].
  simpl. destruct (has_key k d) eqn:E; simpl; [exact IH|].
  rewrite E. exact IH.
Qed.

End UnsetFacts.
(** ** [get], [getDefault], [set] and [unset] *)

Section ModelFacts.

Variable defaults : gmap string Value.
Variable getValidator : string -> option Validator.
Variable getDefaultFunction : string -> option (unit -> Value).

(** C1, as amended.  A stored document answers [get] with its ['value']
    as it is; without one, an explicit default other than the literal
    ['__default__'] is returned, and [get] without default returns
    [getDefault(key)].  The collection is not changed. *)
Theorem get_spec (key : string) (D : Object) (c : Collection) :
  (forall d, findOne key c = (Ok (Some d), c) ->
             get defaults getDefaultFunction key D c = (Ok (value d), c)) /\
  (findOne key c = (Ok None, c) -> is_no_default D = false ->
             get defaults getDefaultFunction key D c
             = (Ok (object_value D), c)) /\
  (findOne key c = (Ok None, c) ->
             get defaults getDefaultFunction key no_default c
             = (Ok (getDefault defaults getDefaultFunction key), c)).
Proof.
  unfold Setting.get, bind, findOne.
  repeat split.
  - intros d H. inversion H as [E]. rewrite E. reflexivity.
  - intros H HD. inversion H as [E]. rewrite E, HD. reflexivity.
  - intros H. inversion H as [E]. rewrite E. reflexivity.
Qed.

(** C10, as amended.  The missing default is told by identity, not by
    value.  Without a stored document, [get] called with the literal
    ['__default__'] as its default returns [getDefault(key)], which is
    what the call without default returns, and the string comes back only
    if [getDefault(key)] is that string; any other object is returned as
    the default, a string equal to ['__default__'] that was built at run
    time among them. *)
Theorem get_default_string (key : string) (c : Collection) :
  findOne key c = (Ok None, c) ->
  get defaults getDefaultFunction key (Interned "__default__") c
  = (Ok (getDefault defaults getDefaultFunction key), c) /\
  (getDefault defaults getDefaultFunction key <> VStr "__default__" ->
   fst (get defaults getDefaultFunction key (Interned "__default__") c)
   <> Ok (VStr "__default__")) /\
  (forall v, get defaults getDefaultFunction key (Built v) c = (Ok v, c)) /\
  get defaults getDefaultFunction key (Built (VStr "__default__")) c
  = (Ok (VStr "__default__"), c).
Proof.
  intros H. unfold Setting.get, bind, findOne in *.
  inversion H as [E]. rewrite E. simpl.
  repeat split. intros Hne Heq. inversion Heq. contradiction.
Qed.

(** C3.  [getDefault] looks in the table of built-in defaults first, then
    calls the default function of the registry, and is [None] when the
    key has neither. *)
Theorem getDefault_order (key : string) :
  (forall v, defaults !! key = Some v ->
             getDefault defaults getDefaultFunction key = v) /\
  (forall fn, defaults !! key = None -> getDefaultFunction key = Some fn ->
              getDefault defaults getDefaultFunction key = fn tt) /\
  (defaults !! key = None -> getDefaultFunction key = None ->
              getDefault defaults getDefaultFunction key = VNone).
Proof.
  unfold Setting.getDefault. repeat split.
  - intros v Hv. rewrite bool_decide_eq_true_2.
    + rewrite Hv. reflexivity.
    + apply elem_of_dom. exists v. exact Hv.
  - intros fn Hd Hf. rewrite bool_decide_eq_false_2.
    + rewrite Hf. reflexivity.
    + rewrite elem_of_dom, Hd. intros [x Hx]. discriminate.
  - intros Hd Hf. rewrite bool_decide_eq_false_2.
    + rewrite Hf. reflexivity.
    + rewrite elem_of_dom, Hd. intros [x Hx]. discriminate.
Qed.

Lemma find_has_key key (l : list Doc) d :
  List.find (has_key key) l = Some d -> Store.key d = key.
Proof. intros H. apply find_some in H. apply has_key_true, H. Qed.

(** C2.  [set] on a key without validator raises the
    [ValidationException] on field ['key'] and leaves the collection as
    it was. *)
Theorem set_unregistered (key : string) (value : Value) (c : Collection) :
  getValidator key = None ->
  set getValidator key value c =
  (Raise (ValidationException ("Invalid setting key " ++ quoted key ++ ".")
            (Some "key")), c).
Proof.
  intros Hv. unfold Setting.set, save, bind, findOne, lift, validate.
  simpl. destruct (List.find (has_key key) (documents c)) as [d|] eqn:E; simpl.
  - rewrite (find_has_key _ _ _ E), Hv. reflexivity.
  - rewrite Hv. reflexivity.
Qed.

(** C9, as amended.  After [unset(key)], which deletes the documents of
    the key, keeps the others and changes nothing when there is none,
    [get(key, D)] returns [D] for every default [D] other than the string
    ['__default__']. *)
Theorem unset_then_get (key : string) (D : Object) (c : Collection) :
  stored (documents c) ->
  is_no_default D = false ->
  exists c',
    unset key c = (Ok tt, c') /\
    get defaults getDefaultFunction key D c' = (Ok (object_value D), c') /\
    (forall d, In d (documents c') <->
               In d (documents c) /\ Store.key d <> key) /\
    (List.filter (has_key key) (documents c) = [] -> c' = c).
Proof.
  intros Hs HD. eexists. split; [apply unset_run, Hs|].
  split; [|split].
  - unfold Setting.get, bind, findOne. simpl.
    rewrite find_none_filter, HD. reflexivity.
  - intros d. simpl. rewrite filter_In. rewrite negb_true_iff.
    rewrite <- not_true_iff_false, has_key_true. reflexivity.
  - intros Hnone. destruct c as [docs ix]. simpl in *. f_equal.
    apply filter_all. intros x Hx.
    destruct (has_key key x) eqn:E; [|reflexivity].
    exfalso. assert (Hin : In x (List.filter (has_key key) docs))
      by (apply filter_In; auto).
    rewrite Hnone in Hin. destruct Hin.
Qed.

End ModelFacts.

(** C1 as stated fails: with no stored document and the literal
    ['__default__'] as explicit default, [get] returns the built-in
    default of the key. *)
Lemma get_explicit_default_counterexample :
  findOne "core.cookie_lifetime" Sample.empty = (Ok None, Sample.empty) /\
  get Sample.defaults Sample.getDefaultFunction
      "core.cookie_lifetime" (Interned "__default__") Sample.empty
  = (Ok (VInt 180), Sample.empty) /\
  fst (get Sample.defaults Sample.getDefaultFunction
         "core.cookie_lifetime" (Interned "__default__") Sample.empty)
  <> Ok (object_value (Interned "__default__")).
Proof.
  split; [reflexivity|]. split; [vm_compute; reflexivity|].
  vm_compute. discriminate.
Qed.

Lemma get_spec_witness :
  get Sample.defaults Sample.getDefaultFunction
      "core.cookie_lifetime" (Built (VInt 5)) Sample.one
  = (Ok (VInt 3600), Sample.one) /\
  get Sample.defaults Sample.getDefaultFunction
      "core.email_host" (Built (VInt 5)) Sample.one
  = (Ok (VInt 5), Sample.one) /\
  get Sample.defaults Sample.getDefaultFunction
      "core.email_host" no_default Sample.one
  = (Ok (getDefault Sample.defaults Sample.getDefaultFunction
           "core.email_host"), Sample.one).
Proof.
  split; [|split].
  - apply (proj1 (get_spec Sample.defaults Sample.getDefaultFunction
                    "core.cookie_lifetime" (Built (VInt 5)) Sample.one)
             (mkDoc (Some 7%N) "core.cookie_lifetime" (VInt 3600))).
    reflexivity.
  - apply (proj1 (proj2 (get_spec Sample.defaults Sample.getDefaultFunction
                           "core.email_host" (Built (VInt 5)) Sample.one)));
      reflexivity.
  - apply (proj2 (proj2 (get_spec Sample.defaults Sample.getDefaultFunction
                           "core.email_host" (Built (VInt 5)) Sample.one))).
    reflexivity.
Defined.

(** C10 as stated fails: a string equal to ['__default__'] that is not
    the literal is returned by [get], which does not fall through to the
    built-in default of the key. *)
Lemma get_default_string_counterexample :
  findOne "core.cookie_lifetime" Sample.empty = (Ok None, Sample.empty) /\
  get Sample.defaults Sample.getDefaultFunction
      "core.cookie_lifetime" (Built (VStr "__default__")) Sample.empty
  = (Ok (VStr "__default__"), Sample.empty) /\
  fst (get Sample.defaults Sample.getDefaultFunction
         "core.cookie_lifetime" (Built (VStr "__default__")) Sample.empty)
  <> Ok (getDefault Sample.defaults Sample.getDefaultFunction
           "core.cookie_lifetime").
Proof.
  split; [reflexivity|]. split; [vm_compute; reflexivity|].
  vm_compute. discriminate.
Qed.

Lemma get_default_string_witness :
  findOne "core.email_host" Sample.one = (Ok None, Sample.one) /\
  get Sample.defaults Sample.getDefaultFunction
      "core.email_host" (Interned "__default__") Sample.one
  = (Ok (VStr "http://localhost"), Sample.one) /\
  get Sample.defaults Sample.getDefaultFunction
      "core.email_host" (Built (VStr "__default__")) Sample.one
  = (Ok (VStr "__default__"), Sample.one).
Proof.
  split; [reflexivity|]. split.
  - apply (proj1 (get_default_string Sample.defaults
                    Sample.getDefaultFunction "core.email_host" Sample.one
                    eq_refl)).
  - apply (proj2 (proj2 (proj2 (get_default_string Sample.defaults
                    Sample.getDefaultFunction "core.email_host" Sample.one
                    eq_refl)))).
Defined.

Lemma getDefault_order_witness :
  getDefault Sample.defaults Sample.getDefaultFunction "core.cookie_lifetime"
  = VInt 180 /\
  getDefault Sample.defaults Sample.getDefaultFunction "core.email_host"
  = VStr "http://localhost" /\
  getDefault Sample.defaults Sample.getDefaultFunction "core.smtp_host"
  = VNone.
Proof.
  split; [|split].
  - apply (proj1 (getDefault_order Sample.defaults Sample.getDefaultFunction
                    "core.cookie_lifetime")).
    vm_compute. reflexivity.
  - apply (proj1 (proj2 (getDefault_order Sample.defaults
                           Sample.getDefaultFunction "core.email_host"))
             (fun _ => VStr "http://localhost")).
    + vm_compute. reflexivity.
    + reflexivity.
  - apply (proj2 (proj2 (getDefault_order Sample.defaults
                           Sample.getDefaultFunction "core.smtp_host"))).
    + vm_compute. reflexivity.
    + reflexivity.
Defined.

Lemma set_unregistered_witness :
  Sample.getValidator "core.no_such_setting" = None /\
  set Sample.getValidator "core.no_such_setting" (VInt 1) Sample.one =
  (Raise (ValidationException
            ("Invalid setting key " ++ quoted "core.no_such_setting" ++ ".")
            (Some "key")), Sample.one).
Proof.
  split; [reflexivity|].
  apply (set_unregistered Sample.getValidator "core.no_such_setting"
           (VInt 1) Sample.one).
  reflexivity.
Defined.

Lemma unset_then_get_witness :
  stored (documents Sample.old) /\
  is_no_default (Built (VInt 5)) = false /\
  exists c',
    unset "core.cookie_lifetime" Sample.old = (Ok tt, c') /\
    get Sample.defaults Sample.getDefaultFunction
        "core.cookie_lifetime" (Built (VInt 5)) c' = (Ok (VInt 5), c').
Proof.
  assert (Hs : stored (documents Sample.old))
    by (apply (bool_decide_unpack _); vm_compute; exact I).
  split; [exact Hs|]. split; [reflexivity|].
  destruct (unset_then_get Sample.defaults Sample.getDefaultFunction
              "core.cookie_lifetime" (Built (VInt 5)) Sample.old Hs eq_refl)
    as (c' & Hu & Hg & _).
  exists c'. split; assumption.
Defined.

(** C9 as stated fails for the literal ['__default__'] as default: after
    [unset], [get] answers with the built-in default of the key. *)
Lemma unset_then_get_counterexample :
  exists c',
    unset "core.cookie_lifetime" Sample.one = (Ok tt, c') /\
    fst (get Sample.defaults Sample.getDefaultFunction
           "core.cookie_lifetime" (Interned "__default__") c')
    = Ok (VInt 180) /\
    fst (get Sample.defaults Sample.getDefaultFunction
           "core.cookie_lifetime" (Interned "__default__") c')
    <> Ok (object_value (Interned "__default__")).
Proof.
  eexists. split; [vm_compute; reflexivity|].
  split; [vm_compute; reflexivity|]. vm_compute. discriminate.
Qed.

(** ** The validators *)

Section StringFacts.

Lemma isspace_upper_char c : isspace (upper_char c) = isspace c.
Proof. destruct c as [[] [] [] [] [] [] [] []]; reflexivity. Qed.

Lemma push_word_upper w ws :
  push_word (upper w) (List.map upper ws) = List.map upper (push_word w ws).
Proof. destruct w; reflexivity. Qed.

(** Upper-casing keeps the blanks where they are, so it can be done
    before or after the split. *)
Lemma words_upper s :
  words isspace (upper s) =
  (upper (fst (words isspace s)), List.map upper (snd (words isspace s))).
Proof.
  induction s as [|c r IH]; [reflexivity|].
  simpl. fold (upper r). rewrite IH, isspace_upper_char.
  destruct (words isspace r) as [w ws]. simpl.
  destruct (isspace c); simpl; [|reflexivity].
  rewrite push_word_upper. reflexivity.
Qed.

Lemma split_upper s : split (upper s) = List.map upper (split s).
Proof.
  unfold split, split_by. rewrite words_upper.
  destruct (words isspace s) as [w ws]. simpl. apply push_word_upper.
Qed.

Lemma split_lstrip s : split (lstrip s) = split s.
Proof.
  induction s as [|c r IH]; [reflexivity|].
  simpl. destruct (isspace c) eqn:E; [|reflexivity].
  rewrite IH. unfold split, split_by. simpl. rewrite E.
  destruct (words isspace r) as [w ws]. reflexivity.
Qed.

Lemma words_rstrip s : words isspace (rstrip s) = words isspace s.
Proof.
  induction s as [|c r IH]; [reflexivity|].
  simpl. destruct (rstrip r) as [|c' r'] eqn:E.
  - simpl in IH. rewrite <- IH.
    destruct (isspace c) eqn:Ec; simpl; rewrite ?Ec; reflexivity.
  - change (words isspace (String c (String c' r'))) with
      (let '(w, ws) := words isspace (String c' r') in
       if isspace c then (EmptyString, push_word w ws) else (String c w, ws)).
    rewrite IH. reflexivity.
Qed.

Lemma split_strip s : split (strip s) = split s.
Proof.
  unfold strip. transitivity (split (lstrip s)); [|apply split_lstrip].
  unfold split, split_by. rewrite words_rstrip. reflexivity.
Qed.

End StringFacts.

Section DedupFacts.

Lemma words_replace_comma s :
  words isspace (replace "," " " s) = words is_separator s.
Proof.
  induction s as [|c r IH]; [reflexivity|].
  unfold replace in *. simpl. rewrite IH. unfold is_separator.
  destruct (Ascii.eqb c ",") eqn:E; reflexivity.
Qed.

Lemma split_replace_comma s :
  split (replace "," " " s) = split_by is_separator s.
Proof. unfold split, split_by. rewrite words_replace_comma. reflexivity. Qed.

Lemma filter_comm {A} (p q : A -> bool) (l : list A) :
  List.filter p (List.filter q l) = List.filter q (List.filter p l).
Proof.
  rewrite !filter_twice. apply filter_ext. intros x. apply andb_comm.
Qed.

Lemma dedup_filter p l : dedup (List.filter p l) = List.filter p (dedup l).
Proof.
  induction l as [|y r IH]; [reflexivity|].
  simpl. destruct (p y) eqn:E; simpl; rewrite ?E, IH.
  - f_equal. apply filter_comm.
  - rewrite filter_twice. apply filter_ext. intros x.
    destruct (String.eqb x y) eqn:Ex; [|reflexivity].
    apply String.eqb_eq in Ex. subst x. rewrite E. reflexivity.
Qed.

(** What [OrderedDict.fromkeys] builds on top of the keys [acc] it has
    already. *)
Lemma fold_od_insert l acc :
  fold_left od_insert l acc =
  (acc ++ dedup (List.filter (fun x => negb (bool_decide (x ∈ acc))) l))%list.
Proof.
  revert acc. induction l as [|x r IH]; intros acc; simpl.
  - rewrite app_nil_r. reflexivity.
  - rewrite IH. unfold od_insert. destruct (bool_decide (x ∈ acc)) eqn:E; simpl.
    + reflexivity.
    + rewrite <- app_assoc. simpl. f_equal. f_equal.
      rewrite <- dedup_filter, filter_twice. f_equal.
      apply filter_ext. intros y.
      destruct (String.eqb y x) eqn:Ey; simpl.
      * apply String.eqb_eq in Ey. subst y.
        rewrite bool_decide_eq_true_2
          by (apply elem_of_app; right; apply list_elem_of_singleton; reflexivity).
        rewrite andb_false_r. reflexivity.
      * apply String.eqb_neq in Ey. rewrite andb_true_r. f_equal.
        apply bool_decide_ext. rewrite elem_of_app, list_elem_of_singleton.
        tauto.
Qed.

Lemma fromkeys_dedup l : fromkeys l = dedup l.
Proof.
  unfold fromkeys. rewrite fold_od_insert. simpl. f_equal.
  apply filter_all. intros x _. reflexivity.
Qed.

End DedupFacts.

(** C5.  On a string the CORS-allowed-methods validator stores the normal
    form of the specification: cut at commas and white space, upper case,
    first occurrences only, joined with [", "]; ["get, GET, post"] becomes
    ["GET, POST"].  A value that is not a string is refused with a
    [ValidationException] on field ['value']. *)
Theorem cors_allow_methods_spec (doc : Doc) :
  (forall s, value doc = VStr s ->
     validateCoreCorsAllowMethods doc
     = Ok (set_value (VStr (normalize_methods s)) doc)) /\
  (forall i k,
     validateCoreCorsAllowMethods (mkDoc i k (VStr "get, GET, post"))
     = Ok (mkDoc i k (VStr "GET, POST"))) /\
  (is_string (value doc) = false ->
     exists message,
       validateCoreCorsAllowMethods doc
       = Raise (ValidationException message (Some "value"))).
Proof.
  split; [|split].
  - intros s Hs. unfold validateCoreCorsAllowMethods, normalize_methods.
    rewrite Hs, fromkeys_dedup, split_upper, split_strip, split_replace_comma.
    reflexivity.
  - intros i k. reflexivity.
  - intros Hn. unfold validateCoreCorsAllowMethods.
    destruct (value doc); try discriminate; eexists; reflexivity.
Qed.

Lemma cors_allow_methods_spec_witness :
  validateCoreCorsAllowMethods
    (mkDoc None "core.cors.allow_methods" (VStr "put,,Delete  PUT"))
  = Ok (mkDoc None "core.cors.allow_methods" (VStr "PUT, DELETE")) /\
  exists message,
    validateCoreCorsAllowMethods
      (mkDoc None "core.cors.allow_methods" (VList [VStr "GET"]))
    = Raise (ValidationException message (Some "value")).
Proof.
  split.
  - apply (proj1 (cors_allow_methods_spec
                    (mkDoc None "core.cors.allow_methods"
                       (VStr "put,,Delete  PUT")))
             "put,,Delete  PUT").
    reflexivity.
  - apply (proj2 (proj2 (cors_allow_methods_spec
                    (mkDoc None "core.cors.allow_methods"
                       (VList [VStr "GET"]))))).
    reflexivity.
Defined.

(** What the add-to-group-policy validator does on a string: the value is
    stored in lower case when that is one of the five policies or the
    empty string, and a [ValidationException] on field ['value'] is raised
    when it is not; ["NOADMIN"] becomes ["noadmin"] and ["bogus"] is
    refused. *)
Lemma add_to_group_policy_spec (doc : Doc) (s : string) :
  value doc = VStr s ->
  (In (lower s) ["never"; "noadmin"; "nomod"; "yesadmin"; "yesmod"; ""] ->
     validateCoreAddToGroupPolicy doc = Ok (set_value (VStr (lower s)) doc)) /\
  (~ In (lower s) ["never"; "noadmin"; "nomod"; "yesadmin"; "yesmod"; ""] ->
     exists message,
       validateCoreAddToGroupPolicy doc
       = Raise (ValidationException message (Some "value"))) /\
  (forall i k,
     validateCoreAddToGroupPolicy (mkDoc i k (VStr "NOADMIN"))
     = Ok (mkDoc i k (VStr "noadmin"))) /\
  (forall i k, exists message,
     validateCoreAddToGroupPolicy (mkDoc i k (VStr "bogus"))
     = Raise (ValidationException message (Some "value"))).
Proof.
  intros Hs. unfold validateCoreAddToGroupPolicy. rewrite Hs.
  unfold value_lower, rbind.
  split; [|split; [|split]].
  - intros Hin.
    assert (E : in_strings (lower s)
                  ["never"; "noadmin"; "nomod"; "yesadmin"; "yesmod"; ""] = true).
    { apply existsb_exists. exists (lower s). split; [exact Hin|].
      apply String.eqb_refl. }
    rewrite E. reflexivity.
  - intros Hout.
    assert (E : in_strings (lower s)
                  ["never"; "noadmin"; "nomod"; "yesadmin"; "yesmod"; ""] = false).
    { apply not_true_is_false. intros H. apply Hout.
      apply existsb_exists in H. destruct H as (x & Hx & Ex).
      apply String.eqb_eq in Ex. subst x. exact Hx. }
    rewrite E. eexists. reflexivity.
  - intros i k. reflexivity.
  - intros i k. eexists. reflexivity.
Qed.

Lemma add_to_group_policy_spec_witness :
  validateCoreAddToGroupPolicy
    (mkDoc None "core.add_to_group_policy" (VStr "YesMod"))
  = Ok (mkDoc None "core.add_to_group_policy" (VStr "yesmod")).
Proof.
  apply (proj1 (add_to_group_policy_spec
                  (mkDoc None "core.add_to_group_policy" (VStr "YesMod"))
                  "YesMod" eq_refl)).
  simpl. tauto.
Defined.

(** [int] on the values that set it apart from a parser of digits: a
    grouped number, white space and a sign, a float cut off towards zero,
    and the three ways in which it fails. *)
Lemma int_examples :
  int (VStr "1_000") = Ok 1000 /\
  int (VStr " -25 ") = Ok (-25) /\
  int (VStr "1__0") = Raise ValueError /\
  int (VStr "1.5") = Raise ValueError /\
  int (VFloat (Finite (-7) (-1))) = Ok (-3) /\
  int (VFloat NaN) = Raise ValueError /\
  int (VFloat (Infinite false)) = Raise OverflowError /\
  int (VList []) = Raise TypeError.
Proof. vm_compute. repeat split. Qed.

(** A value that is not a string has no [lower]: the [AttributeError] of
    line 184 leaves the validator before the policy is looked at. *)
Lemma add_to_group_policy_uncaught (doc : Doc) :
  is_string (value doc) = false ->
  validateCoreAddToGroupPolicy doc = Raise AttributeError.
Proof.
  intros H. unfold validateCoreAddToGroupPolicy, value_lower, rbind.
  destruct (value doc); try discriminate; reflexivity.
Qed.

(** C7, where the code departs from it.  The number [1] lower-cases to
    none of the five policies nor to the empty string, yet the validator
    does not answer with the [ValidationException] on field ['value']:
    the [AttributeError] of [lower] leaves the validator, for a number,
    for [None] and for a list alike.  The type checks that guard the
    other validators (lines 175, 195, 222, 234, 246 and 266) are missing
    here. *)
Theorem add_to_group_policy_AttributeError :
  validateCoreAddToGroupPolicy
    (mkDoc None "core.add_to_group_policy" (VInt 1))
  = Raise AttributeError /\
  validateCoreAddToGroupPolicy (mkDoc None "core.add_to_group_policy" VNone)
  = Raise AttributeError /\
  validateCoreAddToGroupPolicy
    (mkDoc None "core.add_to_group_policy" (VList [VStr "never"]))
  = Raise AttributeError.
Proof. repeat split. Qed.

(** What the cookie-lifetime validator does on the values [int] converts
    and on the strings it cannot parse. *)
Lemma cookie_lifetime_converted (doc : Doc) (n : Z) :
  int (value doc) = Ok n ->
  (0 < n -> validateCoreCookieLifetime doc = Ok (set_value (VInt n) doc)) /\
  (n <= 0 ->
   validateCoreCookieLifetime doc
   = Raise (ValidationException "Cookie lifetime must be an integer > 0."
              (Some "value"))).
Proof.
  intros Hn. unfold validateCoreCookieLifetime. rewrite Hn. split; intros H.
  - apply Z.ltb_lt in H. rewrite H. reflexivity.
  - apply Z.ltb_ge in H. rewrite H. reflexivity.
Qed.

Lemma cookie_lifetime_ValueError (doc : Doc) :
  int (value doc) = Raise ValueError ->
  validateCoreCookieLifetime doc
  = Raise (ValidationException "Cookie lifetime must be an integer > 0."
             (Some "value")).
Proof. intros H. unfold validateCoreCookieLifetime. rewrite H. reflexivity. Qed.

Lemma cookie_lifetime_examples (i : option ObjectId) (k : string) :
  validateCoreCookieLifetime (mkDoc i k (VStr "3600")) = Ok (mkDoc i k (VInt 3600)) /\
  validateCoreCookieLifetime (mkDoc i k (VStr "0"))
  = Raise (ValidationException "Cookie lifetime must be an integer > 0."
             (Some "value")) /\
  validateCoreCookieLifetime (mkDoc i k (VStr "an hour"))
  = Raise (ValidationException "Cookie lifetime must be an integer > 0."
             (Some "value")).
Proof. repeat split. Qed.

(** The [TypeError] of [int] is not caught by [except ValueError]. *)
Lemma cookie_lifetime_uncaught (doc : Doc) :
  int (value doc) = Raise TypeError ->
  validateCoreCookieLifetime doc = Raise TypeError.
Proof.
  intros H. unfold validateCoreCookieLifetime. rewrite H. reflexivity.
Qed.

(** C6, where the code departs from it.  A list does not parse as an
    integer, yet the validator does not answer with the
    [ValidationException]: the [TypeError] of [int] leaves the validator,
    for the empty list and for [None] alike. *)
Theorem cookie_lifetime_TypeError :
  validateCoreCookieLifetime (mkDoc None "core.cookie_lifetime" (VList []))
  = Raise TypeError /\
  validateCoreCookieLifetime (mkDoc None "core.cookie_lifetime" VNone)
  = Raise TypeError.
Proof. split; reflexivity. Qed.

(** Whatever is not a dictionary is refused without a field. *)
Lemma collection_create_policy_not_dict
  (load : string -> Value -> Result unit)
  (ObjectId_of : Value -> Result ObjectId) (doc : Doc) :
  is_dict (value doc) = false ->
  validateCoreCollectionCreatePolicy load ObjectId_of doc
  = Raise (ValidationException
             "Collection creation policy must be a JSON object." None).
Proof.
  intros H. unfold validateCoreCollectionCreatePolicy.
  destruct (value doc); try reflexivity. discriminate.
Qed.

(** C8, where the code departs from it.  The collection-creation-policy
    validator refuses a value that is not a dictionary with a
    [ValidationException] that names no field: the second argument of the
    constructor is left out, so [field] is [None], not ['value']. *)
Theorem collection_create_policy_field
  (load : string -> Value -> Result unit)
  (ObjectId_of : Value -> Result ObjectId) :
  validateCoreCollectionCreatePolicy load ObjectId_of
    (mkDoc None "core.collection_create_policy" (VStr "open"))
  = Raise (ValidationException
             "Collection creation policy must be a JSON object." None).
Proof. reflexivity. Qed.

(** ** [reconnect] *)

Section IndexFacts.

Lemma scan_indices_found l acc :
  fst (scan_indices l acc) = true <->
  exists name info, In (name, info) l /\ on_key info = true /\ is_unique info = true.
Proof.
  revert acc. induction l as [|[n i] r IH]; intros acc; simpl.
  - split; [discriminate|]. intros (? & ? & [] & _).
  - destruct (on_key i) eqn:Ek; [destruct (is_unique i) eqn:Eu|].
    + simpl. split; [|reflexivity]. intros _. exists n, i. auto.
    + rewrite IH. split; intros (n' & i' & H & Hk & Hu); exists n', i'.
      * auto.
      * destruct H as [H|H]; [|auto]. inversion H; subst. congruence.
    + rewrite IH. split; intros (n' & i' & H & Hk & Hu); exists n', i'.
      * auto.
      * destruct H as [H|H]; [|auto]. inversion H; subst. congruence.
Qed.

(** Without a unique index on ['key'] the loop runs to the end and has
    collected every index on ['key']. *)
Lemma scan_indices_not_found l acc :
  fst (scan_indices l acc) = false ->
  snd (scan_indices l acc) =
  (acc ++ List.map fst (List.filter (fun p => on_key (snd p)) l))%list.
Proof.
  revert acc. induction l as [|[n i] r IH]; intros acc; simpl.
  - intros _. rewrite app_nil_r. reflexivity.
  - destruct (on_key i) eqn:Ek; [destruct (is_unique i) eqn:Eu|]; simpl.
    + discriminate.
    + intros H. rewrite (IH _ H), <- app_assoc. reflexivity.
    + apply IH.
Qed.

Lemma for_each_drop_index names docs (ix : gmap string IndexInfo) :
  NoDup names ->
  (forall n, In n names -> is_Some (ix !! n)) ->
  for_each names drop_index (mkCollection docs ix) =
  (Ok tt, mkCollection docs (drop_all names ix)).
Proof.
  revert ix. induction names as [|n r IH]; intros ix Hn Hin; [reflexivity|].
  simpl. unfold bind at 1. unfold drop_index at 1. simpl.
  destruct (Hin n (or_introl eq_refl)) as [info Hinfo]. rewrite Hinfo.
  apply NoDup_cons in Hn. destruct Hn as [Hnotin Hn].
  apply IH; [exact Hn|].
  intros n' Hn'. rewrite lookup_delete_ne.
  - apply Hin. right. exact Hn'.
  - intros ->. apply Hnotin, list_elem_of_In, Hn'.
Qed.

Lemma key_index_names_NoDup (ix : gmap string IndexInfo) :
  NoDup (List.map fst (List.filter (fun p => on_key (snd p)) (map_to_list ix))).
Proof.
  pose proof (NoDup_fst_map_to_list ix) as H.
  induction (map_to_list ix) as [|[n i] r IH]; simpl in *; [constructor|].
  apply NoDup_cons in H. destruct H as [Hn H].
  destruct (on_key i); simpl; [|auto].
  apply NoDup_cons. split; [|auto].
  intros Hin. apply Hn. apply list_elem_of_In in Hin.
  apply list_elem_of_In. apply in_map_iff in Hin.
  destruct Hin as (p & Hp & Hin). apply in_map_iff. exists p.
  split; [exact Hp|]. eapply filter_sub, Hin.
Qed.

Lemma key_index_names_present (ix : gmap string IndexInfo) n :
  In n (List.map fst (List.filter (fun p => on_key (snd p)) (map_to_list ix))) ->
  is_Some (ix !! n).
Proof.
  intros H. apply in_map_iff in H. destruct H as ([n' i] & Hn & Hin).
  simpl in Hn. subst n'. apply filter_In in Hin. destruct Hin as [Hin _].
  exists i. apply elem_of_map_to_list, list_elem_of_In, Hin.
Qed.

End IndexFacts.

Section DuplicateFacts.

Lemma in_dedup x l : In x (dedup l) <-> In x l.
Proof.
  induction l as [|y r IH]; simpl; [reflexivity|].
  rewrite filter_In, IH. destruct (String.eqb x y) eqn:E.
  - apply String.eqb_eq in E. subst. simpl. split; auto.
  - apply String.eqb_neq in E. simpl. split.
    + intros [H|[H _]]; auto.
    + intros [H|H]; [congruence|auto].
Qed.

(** All but the first of the sorted identities: those with a smaller one
    beside them. *)
Lemma in_tail_sorted (l : list ObjectId) i :
  NoDup l ->
  In i (tail (sorted l)) <-> In i l /\ exists j, In j l /\ (j < i)%N.
Proof.
  intros Hn. unfold sorted.
  pose proof (merge_sort_Permutation N.le l) as Hp.
  pose proof (StronglySorted_merge_sort N.le l) as Hs.
  assert (Hn' : NoDup (merge_sort N.le l)) by (rewrite Hp; exact Hn).
  assert (Hin : forall z, In z (merge_sort N.le l) <-> In z l).
  { intros z. rewrite <- !list_elem_of_In, Hp. reflexivity. }
  destruct (merge_sort N.le l) as [|x t]; simpl.
  - split; [intros []|]. intros [H _]. apply Hin in H. destruct H.
  - apply NoDup_cons in Hn'. destruct Hn' as [Hx _].
    apply StronglySorted_inv in Hs. destruct Hs as [_ Hle].
    rewrite List.Forall_forall in Hle.
    split.
    + intros Hi. split; [apply Hin; right; exact Hi|].
      exists x. split; [apply Hin; left; reflexivity|].
      specialize (Hle i Hi).
      assert (x <> i) by (intros ->; apply Hx, list_elem_of_In, Hi).
      lia.
    + intros [Hi (j & Hj & Hlt)]. apply Hin in Hi. apply Hin in Hj.
      destruct Hi as [Hi|Hi]; [|exact Hi]. subst i. exfalso.
      destruct Hj as [Hj|Hj]; [lia|]. specialize (Hle j Hj). lia.
Qed.

Lemma two_in_list {A} (a b : A) l : In a l -> In b l -> a <> b -> (1 < length l)%nat.
Proof.
  destruct l as [|y [|z r]]; simpl; intros Ha Hb Hne.
  - destruct Ha.
  - destruct Ha as [<-|[]], Hb as [<-|[]]. congruence.
  - lia.
Qed.

Lemma in_ids_group l k i :
  In i (ids (group_of l k)) <->
  exists d, In d l /\ key d = k /\ _id d = Some i.
Proof.
  unfold group_of. simpl.
  rewrite <- list_elem_of_In, elem_of_remove_dups, list_elem_of_In, in_omap_id.
  split; intros (d & Hd & E).
  - apply filter_In in Hd. destruct Hd as [Hd Hk].
    exists d. apply has_key_true in Hk. auto.
  - destruct E as [Hk E]. exists d. split; [|exact E].
    apply filter_In. split; [exact Hd|]. apply has_key_true, Hk.
Qed.

(** A stored document is deleted by [reconnect] exactly when another
    document of its key has a smaller identity. *)
Lemma in_duplicate_ids l d i :
  stored l -> In d l -> _id d = Some i ->
  In i (duplicate_ids l) <->
  exists x j, In x l /\ key x = key d /\ _id x = Some j /\ (j < i)%N.
Proof.
  intros Hs Hd Hi. unfold duplicate_ids. rewrite in_concat. split.
  - intros (t & Ht & Hit). apply in_map_iff in Ht.
    destruct Ht as (g & <- & Hg). apply filter_In in Hg.
    destruct Hg as [Hg _]. apply in_map_iff in Hg.
    destruct Hg as (k & <- & _).
    apply in_tail_sorted in Hit; [|apply NoDup_remove_dups].
    destruct Hit as [Hin (j & Hj & Hlt)].
    apply in_ids_group in Hin. destruct Hin as (d' & Hd' & Hk' & Hi').
    apply in_ids_group in Hj. destruct Hj as (x & Hx & Hkx & Hjx).
    assert (d' = d) by (eapply stored_id_inj; eauto; congruence).
    subst d'. exists x, j. repeat split; auto. congruence.
  - intros (x & j & Hx & Hk & Hj & Hlt).
    exists (tail (sorted (ids (group_of l (key d))))). split.
    + apply in_map_iff. exists (group_of l (key d)). split; [reflexivity|].
      apply filter_In. split.
      * apply in_map_iff. exists (key d). split; [reflexivity|].
        rewrite fromkeys_dedup, in_dedup. apply in_map, Hd.
      * apply Nat.ltb_lt. simpl.
        apply (two_in_list d x).
        -- apply filter_In. split; [exact Hd|]. apply has_key_true. reflexivity.
        -- apply filter_In. split; [exact Hx|]. apply has_key_true, Hk.
        -- intros ->. rewrite Hi in Hj. inversion Hj. lia.
    + apply in_tail_sorted; [apply NoDup_remove_dups|]. split.
      * apply in_ids_group. exists d. auto.
      * exists j. split; [|exact Hlt]. apply in_ids_group. exists x. auto.
Qed.

Lemma for_each_duplicates (gs : list KeyGroup) docs ix :
  stored docs ->
  for_each gs (fun duplicate =>
    for_each (tail (sorted (ids duplicate))) delete_one) (mkCollection docs ix) =
  (Ok tt, mkCollection
            (delete_all (concat (List.map (fun g => tail (sorted (ids g))) gs)) docs)
            ix).
Proof.
  revert docs. induction gs as [|g r IH]; intros docs Hs; simpl.
  - rewrite delete_all_nil. reflexivity.
  - unfold bind at 1. rewrite for_each_delete_one by exact Hs.
    rewrite IH by (apply stored_filter, Hs).
    rewrite delete_all_app. reflexivity.
Qed.

End DuplicateFacts.

Section RepairFacts.

(** What the deletions keep: of every key the document of the smallest
    identity. *)
Lemma in_repaired l d :
  stored l ->
  In d (delete_all (duplicate_ids l) l) <->
  In d l /\
  forall x i j, In x l -> key x = key d ->
                _id d = Some i -> _id x = Some j -> (i <= j)%N.
Proof.
  intros Hs. rewrite in_delete_all. split; intros [Hd H]; split; try exact Hd.
  - intros x i j Hx Hk Hi Hj.
    destruct (N.le_gt_cases i j) as [Hle|Hlt]; [exact Hle|].
    exfalso. apply (H i); [|exact Hi].
    apply (in_duplicate_ids l d i Hs Hd Hi). exists x, j. auto.
  - intros i Hin Hi.
    apply (in_duplicate_ids l d i Hs Hd Hi) in Hin.
    destruct Hin as (x & j & Hx & Hk & Hj & Hlt).
    specialize (H x i j Hx Hk Hi Hj). lia.
Qed.

Lemma smallest_of_key l k d :
  Forall (fun d => is_Some (_id d)) l ->
  In d l -> key d = k ->
  exists d0 i0,
    In d0 l /\ key d0 = k /\ _id d0 = Some i0 /\
    forall x j, In x l -> key x = k -> _id x = Some j -> (i0 <= j)%N.
Proof.
  intros Hf. revert d. induction l as [|y r IH]; intros d Hd Hk; [destruct Hd|].
  pose proof (Forall_inv Hf) as [iy Hiy].
  apply Forall_inv_tail in Hf. specialize (IH Hf).
  destruct (List.find (has_key k) r) as [z|] eqn:Ez.
  - apply find_some in Ez. destruct Ez as [Hz Hkz].
    apply has_key_true in Hkz.
    destruct (IH z Hz Hkz) as (d1 & i1 & Hd1 & Hk1 & Hi1 & Hmin).
    destruct (String.eqb (key y) k) eqn:Ey.
    + apply String.eqb_eq in Ey.
      destruct (N.le_gt_cases iy i1) as [Hle|Hgt].
      * exists y, iy. repeat split; auto; [left; reflexivity|].
        intros x j [<-|Hx] Hkx Hj.
        -- rewrite Hiy in Hj. inversion Hj. lia.
        -- specialize (Hmin x j Hx Hkx Hj). lia.
      * exists d1, i1. repeat split; auto; [right; exact Hd1|].
        intros x j [<-|Hx] Hkx Hj.
        -- rewrite Hiy in Hj. inversion Hj. lia.
        -- exact (Hmin x j Hx Hkx Hj).
    + apply String.eqb_neq in Ey.
      exists d1, i1. repeat split; auto; [right; exact Hd1|].
      intros x j [<-|Hx] Hkx Hj; [contradiction|].
      exact (Hmin x j Hx Hkx Hj).
  - assert (Hnone : forall x, In x r -> key x <> k).
    { intros x Hx Hkx. pose proof (find_none _ _ Ez x Hx) as H.
      apply has_key_true in Hkx. congruence. }
    destruct Hd as [<-|Hd]; [|exfalso; exact (Hnone d Hd Hk)].
    exists y, iy. repeat split; auto; [left; reflexivity|].
    intros x j [<-|Hx] Hkx Hj.
    + rewrite Hiy in Hj. inversion Hj. lia.
    + exfalso. exact (Hnone x Hx Hkx).
Qed.

Lemma all_equal_singleton {A} (l : list A) a :
  NoDup l -> In a l -> (forall x, In x l -> x = a) -> l = [a].
Proof.
  intros Hn Ha Hall. destruct l as [|x [|y r]].
  - destruct Ha.
  - rewrite (Hall x (or_introl eq_refl)). reflexivity.
  - exfalso. apply NoDup_cons in Hn. destruct Hn as [Hx _]. apply Hx.
    rewrite (Hall x), <- (Hall y); simpl; auto. left.
Qed.

Lemma stored_NoDup l : stored l -> NoDup l.
Proof. intros [Hn _]. eapply NoDup_fmap_1, Hn. Qed.

Lemma NoDup_filter_list {A} (p : A -> bool) (l : list A) :
  NoDup l -> NoDup (List.filter p l).
Proof.
  induction l as [|x r IH]; simpl; intros Hn; [constructor|].
  apply NoDup_cons in Hn. destruct Hn as [Hx Hn].
  destruct (p x); [|auto]. apply NoDup_cons. split; [|auto].
  intros Hin. apply Hx. apply list_elem_of_In in Hin.
  apply list_elem_of_In. eapply filter_sub, Hin.
Qed.

(** After the deletions the keys are distinct and every key is still
    there, on the document that had the smallest identity. *)
Lemma repaired_one_per_key l :
  stored l ->
  let l' := delete_all (duplicate_ids l) l in
  NoDup (List.map key l') /\
  forall d, In d l ->
    exists d0 i0,
      List.filter (has_key (key d)) l' = [d0] /\
      In d0 l /\ _id d0 = Some i0 /\
      forall x j, In x l -> key x = key d -> _id x = Some j -> (i0 <= j)%N.
Proof.
  intros Hs l'.
  assert (Hsame : forall x y, In x l' -> In y l' -> key x = key y -> x = y).
  { intros x y Hx Hy Hk. apply (in_repaired l x Hs) in Hx.
    apply (in_repaired l y Hs) in Hy.
    destruct Hx as [Hx Hxm], Hy as [Hy Hym].
    destruct Hs as [Hn Hf]. pose proof Hf as Hf'.
    rewrite List.Forall_forall in Hf.
    destruct (Hf x Hx) as [i Hi]. destruct (Hf y Hy) as [j Hj].
    pose proof (Hxm y i j Hy (eq_sym Hk) Hi Hj).
    pose proof (Hym x j i Hx Hk Hj Hi).
    apply (stored_id_inj l); auto; [split; auto|].
    rewrite Hi, Hj. f_equal. lia. }
  split.
  - apply NoDup_fmap_2_strong.
    + intros x y Hx Hy. apply Hsame; apply list_elem_of_In; assumption.
    + apply NoDup_filter_list, stored_NoDup, Hs.
  - intros d Hd.
    destruct (smallest_of_key l (key d) d (proj2 Hs) Hd eq_refl)
      as (d0 & i0 & Hd0 & Hk0 & Hi0 & Hmin).
    exists d0, i0. repeat split; auto.
    assert (Hin0 : In d0 l').
    { apply (in_repaired l d0 Hs). split; [exact Hd0|].
      intros x i j Hx Hkx Hi Hj. rewrite Hi0 in Hi. inversion Hi. subst i.
      apply (Hmin x j Hx); congruence. }
    apply all_equal_singleton.
    + apply NoDup_filter_list, NoDup_filter_list, stored_NoDup, Hs.
    + apply filter_In. split; [exact Hin0|]. apply has_key_true, Hk0.
    + intros x Hx. apply filter_In in Hx. destruct Hx as [Hx Hkx].
      apply has_key_true in Hkx. apply Hsame; auto. congruence.
Qed.

End RepairFacts.

Lemma has_unique_key_index_scan (ix : gmap string IndexInfo) :
  fst (scan_indices (map_to_list ix) []) = true <-> has_unique_key_index ix.
Proof.
  rewrite scan_indices_found. unfold has_unique_key_index.
  split; intros (n & i & H & Hk & Hu); exists n, i; repeat split; auto.
  - apply elem_of_map_to_list, list_elem_of_In, H.
  - apply list_elem_of_In, elem_of_map_to_list, H.
Qed.

(** C4.  With a unique index on ['key'] in the catalogue, [reconnect]
    leaves the collection as it is.  Without one, on a collection of
    stored documents, it succeeds, enters the unique index on ['key'],
    deletes documents only, and leaves of every key exactly one document:
    the one that had the smallest identity. *)
Theorem reconnect_spec (c : Collection) :
  (has_unique_key_index (indices c) -> reconnect c = (Ok tt, c)) /\
  (~ has_unique_key_index (indices c) -> stored (documents c) ->
   exists c',
     reconnect c = (Ok tt, c') /\
     indices c' !! "key_1" = Some key_index /\
     has_unique_key_index (indices c') /\
     (forall d, In d (documents c') -> In d (documents c)) /\
     (forall d, In d (documents c) ->
        exists d0 i0,
          List.filter (has_key (key d)) (documents c') = [d0] /\
          In d0 (documents c) /\ _id d0 = Some i0 /\
          forall x j, In x (documents c) -> key x = key d ->
                      _id x = Some j -> (i0 <= j)%N)).
Proof.
  destruct c as [docs ix]. simpl.
  unfold reconnect, Model_reconnect, bind, ret, try_except, index_information.
  simpl.
  pose proof (has_unique_key_index_scan ix) as Hscan.
  pose proof (scan_indices_not_found (map_to_list ix) []) as Hnames.
  destruct (scan_indices (map_to_list ix) []) as [b names]. simpl in *.
  split.
  - intros Hu. apply Hscan in Hu. subst b. reflexivity.
  - intros Hu Hs.
    assert (b = false) as ->.
    { destruct b; [|reflexivity]. exfalso. apply Hu, Hscan. reflexivity. }
    specialize (Hnames eq_refl). subst names. simpl.
    rewrite for_each_drop_index;
      [|apply key_index_names_NoDup|apply key_index_names_present].
    unfold aggregate_duplicates. simpl.
    rewrite for_each_duplicates by exact Hs.
    fold (duplicate_ids docs).
    destruct (repaired_one_per_key docs Hs) as [Hkeys Hone].
    unfold create_index_key_unique. simpl.
    rewrite bool_decide_eq_true_2 by exact Hkeys.
    eexists. split; [reflexivity|]. simpl.
    split; [apply lookup_insert_eq|].
    split.
    { exists "key_1", key_index. split; [apply lookup_insert_eq|].
      split; reflexivity. }
    split.
    { intros d Hd. eapply filter_sub, Hd. }
    exact Hone.
Qed.

Lemma reconnect_spec_witness :
  reconnect Sample.repaired = (Ok tt, Sample.repaired) /\
  exists c',
    reconnect Sample.old = (Ok tt, c') /\
    indices c' !! "key_1" = Some key_index /\
    exists d0,
      List.filter (has_key "core.cookie_lifetime") (documents c') = [d0] /\
      _id d0 = Some 1%N.
Proof.
  split.
  - apply (proj1 (reconnect_spec Sample.repaired)).
    exists "key_1", key_index. repeat split.
  - assert (Hu : ~ has_unique_key_index (indices Sample.old)).
    { intros H. apply has_unique_key_index_scan in H.
      vm_compute in H. discriminate. }
    assert (Hs : stored (documents Sample.old))
      by (apply (bool_decide_unpack _); vm_compute; exact I).
    destruct (proj2 (reconnect_spec Sample.old) Hu Hs)
      as (c' & Hr & Hix & _ & _ & Hone).
    exists c'. split; [exact Hr|]. split; [exact Hix|].
    destruct (Hone (mkDoc (Some 5%N) "core.cookie_lifetime" (VInt 1))
                (or_introl eq_refl)) as (d0 & i0 & Hf & Hd0 & Hi0 & Hmin).
    exists d0. split; [exact Hf|].
    rewrite Hi0. f_equal. apply N.le_antisymm.
    + apply (Hmin (mkDoc (Some 1%N) "core.cookie_lifetime" (VInt 4)));
        simpl; auto.
    + simpl in Hd0. destruct Hd0 as [<-|[<-|[<-|[<-|[]]]]];
        simpl in Hi0; inversion Hi0; lia.
Defined.

(** * Further properties of the model *)

(** ** [set] *)

Section SetFacts.

Variable getValidator : string -> option Validator.

Lemma candidate_key k v c : key (candidate k v c) = k.
Proof.
  unfold candidate.
  destruct (List.find (has_key k) (documents c)) as [d|] eqn:E; [|reflexivity].
  simpl. eapply find_has_key, E.
Qed.

Lemma find_snoc {A} (p : A -> bool) (l : list A) x :
  List.find p (l ++ [x]) =
  match List.find p l with
  | Some y => Some y
  | None => if p x then Some x else None
  end.
Proof.
  induction l as [|y r IH]; simpl; [reflexivity|].
  destruct (p y); [reflexivity|exact IH].
Qed.

Lemma fresh_id_above l d i :
  In d l -> _id d = Some i -> (i < fresh_id l)%N.
Proof.
  unfold fresh_id. induction l as [|x r IH]; intros Hd Hi; [destruct Hd|].
  simpl. destruct Hd as [->|Hd].
  - rewrite Hi. simpl. apply N.lt_succ_r, N.le_max_l.
  - specialize (IH Hd Hi). apply N.lt_succ_r in IH.
    apply N.lt_succ_r. destruct (_id x); simpl; [|exact IH].
    etransitivity; [exact IH|apply N.le_max_r].
Qed.

(** Replacing the stored document of a key by a document of the same key
    and identity keeps every position, key and identity. *)
Lemma replace_first_found l k d i d' :
  stored l -> List.find (has_key k) l = Some d -> _id d = Some i ->
  key d' = k -> _id d' = Some i ->
  exists l',
    replace_first i d' l = Some l' /\
    List.find (has_key k) l' = Some d' /\
    (forall k', k' <> k ->
       List.find (has_key k') l' = List.find (has_key k') l) /\
    List.map key l' = List.map key l /\
    List.map _id l' = List.map _id l.
Proof.
  intros Hs Hf Hi Hk Hi'.
  induction l as [|x r IH]; [discriminate|].
  assert (Hd : In d (x :: r)) by (eapply find_some, Hf).
  simpl. destruct (has_id i x) eqn:Ex.
  - apply has_id_true in Ex.
    assert (x = d).
    { eapply stored_id_inj; eauto; [left; reflexivity|congruence]. }
    subst x. exists (d' :: r). split; [reflexivity|].
    pose proof (find_has_key _ _ _ Hf) as Hkd.
    split; [|split; [|split]]; simpl.
    + assert (E : has_key k d' = true) by (apply has_key_true, Hk).
      rewrite E. reflexivity.
    + intros k' Hne.
      assert (E : has_key k' d' = false).
      { apply not_true_is_false. rewrite has_key_true. congruence. }
      assert (E' : has_key k' d = false).
      { apply not_true_is_false. rewrite has_key_true. congruence. }
      rewrite E, E'. reflexivity.
    + congruence.
    + congruence.
  - simpl in Hf. destruct (has_key k x) eqn:Ekx.
    + inversion Hf. subst x. apply has_id_true in Hi. congruence.
    + destruct (IH (stored_cons _ _ Hs) Hf) as (l' & Hr & Hf' & Ho & Hks & His).
      rewrite Hr. exists (x :: l'). split; [reflexivity|]. simpl.
      rewrite Ekx. split; [exact Hf'|]. split; [|split; congruence].
      intros k' Hne. rewrite (Ho k' Hne). reflexivity.
Qed.

Lemma set_save k v c :
  set getValidator k v c = save getValidator (candidate k v c) c.
Proof. reflexivity. Qed.

(** What a [set] whose validator accepts does to the collection. *)
Lemma set_run k v c validator d' :
  stored (documents c) ->
  getValidator k = Some validator -> value_only validator ->
  validator (candidate k v c) = Ok d' ->
  exists saved c',
    set getValidator k v c = (Ok saved, c') /\
    key saved = k /\ value saved = value d' /\
    List.find (has_key k) (documents c') = Some saved /\
    (forall k', k' <> k ->
       List.find (has_key k') (documents c')
       = List.find (has_key k') (documents c)) /\
    stored (documents c') /\
    (NoDup (List.map key (documents c)) ->
     NoDup (List.map key (documents c'))) /\
    indices c' = indices c /\
    length (documents c') =
    match List.find (has_key k) (documents c) with
    | Some _ => length (documents c)
    | None => S (length (documents c))
    end.
Proof.
  intros Hs Hv Hvo Hok.
  destruct (Hvo _ _ Hok) as [Hk Hi]. rewrite candidate_key in Hk.
  rewrite set_save. unfold save, bind, lift, validate.
  rewrite candidate_key, Hv, Hok. cbn [rbind].
  destruct c as [docs ix]. simpl in *.
  unfold candidate in Hi. simpl in Hi.
  destruct (List.find (has_key k) docs) as [d|] eqn:Ef.
  - simpl in Hi. destruct Hs as [Hn Hall]. pose proof Hall as Hall'.
    rewrite List.Forall_forall in Hall.
    destruct (Hall d (proj1 (find_some _ _ Ef))) as [i Hid].
    rewrite Hi, Hid. unfold replace_one. simpl.
    destruct (replace_first_found docs k d i d' (conj Hn Hall') Ef Hid Hk)
      as (l' & Hr & Hf' & Ho & Hks & His); [congruence|].
    rewrite Hr. exists d', (mkCollection l' ix). simpl.
    repeat split; auto.
    + rewrite His. exact Hn.
    + apply List.Forall_forall. intros x Hx.
      assert (Hin : In (_id x) (List.map _id docs))
        by (rewrite <- His; apply in_map, Hx).
      apply in_map_iff in Hin. destruct Hin as (y & Hy & Hyin).
      rewrite <- Hy. apply Hall, Hyin.
    + rewrite Hks. auto.
    + rewrite <- (length_map key l'), Hks, length_map. reflexivity.
  - simpl in Hi. rewrite Hi. unfold insert_one. simpl.
    exists (set_id (fresh_id docs) d'),
      (mkCollection (docs ++ [set_id (fresh_id docs) d']) ix). simpl.
    assert (Ekey : has_key k (set_id (fresh_id docs) d') = true)
      by (apply has_key_true; exact Hk).
    repeat split; auto.
    + rewrite find_snoc, Ef, Ekey. reflexivity.
    + intros k' Hne. rewrite find_snoc.
      destruct (List.find (has_key k') docs); [reflexivity|].
      assert (E : has_key k' (set_id (fresh_id docs) d') = false).
      { apply not_true_is_false. rewrite has_key_true. simpl. congruence. }
      rewrite E. reflexivity.
    + rewrite map_app. simpl. apply NoDup_app. split; [apply Hs|].
      split; [|apply NoDup_singleton].
      intros o Ho Ho'. apply list_elem_of_singleton in Ho'. subst o.
      apply list_elem_of_In, in_map_iff in Ho. destruct Ho as (x & Hx & Hin).
      pose proof (fresh_id_above docs x _ Hin Hx). lia.
    + apply Forall_app. split; [apply Hs|].
      constructor; [|constructor]. simpl. eauto.
    + intros Hnk. rewrite map_app. simpl. apply NoDup_app.
      split; [exact Hnk|]. split; [|apply NoDup_singleton].
      intros o Ho Ho'. apply list_elem_of_singleton in Ho'. subst o.
      apply list_elem_of_In, in_map_iff in Ho. destruct Ho as (x & Hx & Hin).
      pose proof (find_none _ _ Ef x Hin) as Hnone.
      apply has_key_true in Hx. congruence.
    + rewrite length_app. simpl. lia.
Qed.

End SetFacts.

Section SetProperties.

Variable defaults : gmap string Value.
Variable getValidator : string -> option Validator.
Variable getDefaultFunction : string -> option (unit -> Value).

Lemma get_of_find key D c :
  get defaults getDefaultFunction key D c =
  (Ok match List.find (has_key key) (documents c) with
      | Some setting => value setting
      | None => if is_no_default D
                then getDefault defaults getDefaultFunction key
                else object_value D
      end, c).
Proof.
  unfold get, bind, findOne. simpl.
  destruct (List.find (has_key key) (documents c)); reflexivity.
Qed.

(** X1.  When the validator of the key raises, [set] raises the same
    exception and the collection is as it was before the call. *)
Theorem set_validator_failure key value c validator e :
  getValidator key = Some validator ->
  validator (candidate key value c) = Raise e ->
  set getValidator key value c = (Raise e, c).
Proof.
  intros Hv He. rewrite set_save. unfold save, bind, lift, validate.
  rewrite candidate_key, Hv, He. reflexivity.
Qed.

(** X2.  On a collection whose documents have distinct identities, and
    for a validator that changes nothing but the ['value'] of a document
    (as every built-in validator does, X5): after a [set] that the
    validator accepts, [get] of the key returns the value as the validator
    normalized it, whatever default is passed. *)
Theorem set_then_get key value c validator d' :
  stored (documents c) ->
  getValidator key = Some validator -> value_only validator ->
  validator (candidate key value c) = Ok d' ->
  exists saved c',
    set getValidator key value c = (Ok saved, c') /\
    Store.value saved = Store.value d' /\
    forall D, get defaults getDefaultFunction key D c'
              = (Ok (Store.value d'), c').
Proof.
  intros Hs Hv Hvo Hok.
  destruct (set_run getValidator key value c validator d' Hs Hv Hvo Hok)
    as (saved & c' & Hset & _ & Hval & Hfind & _).
  exists saved, c'. split; [exact Hset|]. split; [exact Hval|].
  intros D. rewrite get_of_find, Hfind, Hval. reflexivity.
Qed.

(** X3.  On a collection whose documents have distinct identities, and
    for a validator that changes nothing but the ['value'] of a document
    (as every built-in validator does, X5): a [set] that the validator
    accepts changes the answer of [get] for no other key, and leaves the
    index catalogue alone. *)
Theorem set_other_keys key value c validator d' :
  stored (documents c) ->
  getValidator key = Some validator -> value_only validator ->
  validator (candidate key value c) = Ok d' ->
  exists saved c',
    set getValidator key value c = (Ok saved, c') /\
    indices c' = indices c /\
    forall key' D, key' <> key ->
      fst (get defaults getDefaultFunction key' D c')
      = fst (get defaults getDefaultFunction key' D c).
Proof.
  intros Hs Hv Hvo Hok.
  destruct (set_run getValidator key value c validator d' Hs Hv Hvo Hok)
    as (saved & c' & Hset & _ & _ & _ & Hother & _ & _ & Hix & _).
  exists saved, c'. split; [exact Hset|]. split; [exact Hix|].
  intros key' D Hne. rewrite !get_of_find. simpl.
  rewrite (Hother key' Hne). reflexivity.
Qed.

(** X4.  On a collection whose documents have distinct identities, and
    for a validator that changes nothing but the ['value'] of a document
    (as every built-in validator does, X5): a [set] that the validator
    accepts keeps the collection well formed: identities stay present and
    distinct, keys that were distinct stay distinct, and a document is
    added only when the key had none. *)
Theorem set_keeps_one_per_key key value c validator d' :
  stored (documents c) ->
  getValidator key = Some validator -> value_only validator ->
  validator (candidate key value c) = Ok d' ->
  exists saved c',
    set getValidator key value c = (Ok saved, c') /\
    stored (documents c') /\
    (NoDup (List.map Store.key (documents c)) ->
     NoDup (List.map Store.key (documents c'))) /\
    length (documents c') =
    match List.find (has_key key) (documents c) with
    | Some _ => length (documents c)
    | None => S (length (documents c))
    end.
Proof.
  intros Hs Hv Hvo Hok.
  destruct (set_run getValidator key value c validator d' Hs Hv Hvo Hok)
    as (saved & c' & Hset & _ & _ & _ & _ & Hst & Hkeys & _ & Hlen).
  exists saved, c'. auto.
Qed.

End SetProperties.

(** ** The validators touch the value only *)

Ltac value_only_tac :=
  intros d d' H;
  repeat match type of H with
         | context [match ?x with _ => _ end] => destruct x eqn:?
         | context [if ?b then _ else _] => destruct b eqn:?
         end;
  try discriminate; inversion H; subst; split; reflexivity.

Lemma cookie_lifetime_value_only : value_only validateCoreCookieLifetime.
Proof. unfold value_only, validateCoreCookieLifetime. value_only_tac. Qed.

Lemma cors_allow_methods_value_only : value_only validateCoreCorsAllowMethods.
Proof. unfold value_only, validateCoreCorsAllowMethods. value_only_tac. Qed.

Create HintDb value_only.

Lemma add_to_group_policy_value_only : value_only validateCoreAddToGroupPolicy.
Proof.
  unfold value_only, validateCoreAddToGroupPolicy, value_lower, rbind.
  value_only_tac.
Qed.

Lemma collection_create_policy_value_only load ObjectId_of :
  value_only (validateCoreCollectionCreatePolicy load ObjectId_of).
Proof.
  unfold value_only, validateCoreCollectionCreatePolicy, rbind.
  value_only_tac.
Qed.

Lemma cors_allow_headers_value_only : value_only validateCoreCorsAllowHeaders.
Proof. unfold value_only, validateCoreCorsAllowHeaders. value_only_tac. Qed.

Lemma cors_allow_origin_value_only : value_only validateCoreCorsAllowOrigin.
Proof. unfold value_only, validateCoreCorsAllowOrigin. value_only_tac. Qed.

Lemma email_from_address_value_only : value_only validateCoreEmailFromAddress.
Proof. unfold value_only, validateCoreEmailFromAddress. value_only_tac. Qed.

Lemma email_host_value_only : value_only validateCoreEmailHost.
Proof. unfold value_only, validateCoreEmailHost. value_only_tac. Qed.

Lemma registration_policy_value_only :
  value_only validateCoreRegistrationPolicy.
Proof.
  unfold value_only, validateCoreRegistrationPolicy, value_lower, rbind.
  value_only_tac.
Qed.

Lemma email_verification_value_only : value_only validateCoreEmailVerification.
Proof.
  unfold value_only, validateCoreEmailVerification, value_lower, rbind.
  value_only_tac.
Qed.

Lemma smtp_host_value_only : value_only validateCoreSmtpHost.
Proof. unfold value_only, validateCoreSmtpHost. value_only_tac. Qed.

Lemma smtp_port_value_only : value_only validateCoreSmtpPort.
Proof. unfold value_only, validateCoreSmtpPort. value_only_tac. Qed.

Lemma smtp_encryption_value_only : value_only validateCoreSmtpEncryption.
Proof. unfold value_only, validateCoreSmtpEncryption. value_only_tac. Qed.

Lemma smtp_username_value_only : value_only validateCoreSmtpUsername.
Proof. unfold value_only, validateCoreSmtpUsername. value_only_tac. Qed.

Lemma smtp_password_value_only : value_only validateCoreSmtpPassword.
Proof. unfold value_only, validateCoreSmtpPassword. value_only_tac. Qed.

Lemma upload_minimum_chunk_size_value_only :
  value_only validateCoreUploadMinimumChunkSize.
Proof.
  unfold value_only, validateCoreUploadMinimumChunkSize. value_only_tac.
Qed.

Lemma user_default_folders_value_only :
  value_only validateCoreUserDefaultFolders.
Proof. unfold value_only, validateCoreUserDefaultFolders. value_only_tac. Qed.

#[local] Hint Resolve
  add_to_group_policy_value_only collection_create_policy_value_only
  cookie_lifetime_value_only cors_allow_methods_value_only
  cors_allow_headers_value_only cors_allow_origin_value_only
  email_from_address_value_only email_host_value_only
  registration_policy_value_only email_verification_value_only
  smtp_host_value_only smtp_port_value_only smtp_encryption_value_only
  smtp_username_value_only smtp_password_value_only
  upload_minimum_chunk_size_value_only user_default_folders_value_only
  : value_only.

(** X5.  Every built-in validator that accepts a document hands back a
    document of the same ['key'] and ['_id']: only the ['value'] is
    normalized. *)
Theorem builtin_validators_value_only
  (load : string -> Value -> Result unit)
  (ObjectId_of : Value -> Result ObjectId) :
  Forall value_only
    [validateCoreAddToGroupPolicy;
     validateCoreCollectionCreatePolicy load ObjectId_of;
     validateCoreCookieLifetime;
     validateCoreCorsAllowMethods;
     validateCoreCorsAllowHeaders;
     validateCoreCorsAllowOrigin;
     validateCoreEmailFromAddress;
     validateCoreEmailHost;
     validateCoreRegistrationPolicy;
     validateCoreEmailVerification;
     validateCoreSmtpHost;
     validateCoreSmtpPort;
     validateCoreSmtpEncryption;
     validateCoreSmtpUsername;
     validateCoreSmtpPassword;
     validateCoreUploadMinimumChunkSize;
     validateCoreUserDefaultFolders].
Proof.
  repeat (apply Forall_cons_2; [solve [auto with value_only]|]).
  apply Forall_nil_2.
Qed.

Lemma set_validator_failure_witness :
  set Sample.getValidator "core.cookie_lifetime" (VStr "0") Sample.one
  = (Raise (ValidationException "Cookie lifetime must be an integer > 0."
              (Some "value")), Sample.one).
Proof.
  apply (set_validator_failure Sample.getValidator "core.cookie_lifetime"
           (VStr "0") Sample.one validateCoreCookieLifetime);
    reflexivity.
Defined.

Lemma set_then_get_witness :
  exists saved c',
    set Sample.getValidator "core.cookie_lifetime" (VStr "7200") Sample.one
    = (Ok saved, c') /\
    Store.value saved = VInt 7200 /\
    forall D, get Sample.defaults Sample.getDefaultFunction
                "core.cookie_lifetime" D c' = (Ok (VInt 7200), c').
Proof.
  assert (Hs : stored (documents Sample.one))
    by (apply (bool_decide_unpack _); vm_compute; exact I).
  exact (set_then_get Sample.defaults Sample.getValidator
           Sample.getDefaultFunction "core.cookie_lifetime" (VStr "7200")
           Sample.one validateCoreCookieLifetime
           (mkDoc (Some 7%N) "core.cookie_lifetime" (VInt 7200))
           Hs eq_refl cookie_lifetime_value_only eq_refl).
Defined.

Lemma set_other_keys_witness :
  exists saved c',
    set Sample.getValidator "core.cors.allow_methods" (VStr "get put")
      Sample.one = (Ok saved, c') /\
    indices c' = indices Sample.one /\
    forall key' D, key' <> "core.cors.allow_methods" ->
      fst (get Sample.defaults Sample.getDefaultFunction key' D c')
      = fst (get Sample.defaults Sample.getDefaultFunction key' D Sample.one).
Proof.
  assert (Hs : stored (documents Sample.one))
    by (apply (bool_decide_unpack _); vm_compute; exact I).
  exact (set_other_keys Sample.defaults Sample.getValidator
           Sample.getDefaultFunction "core.cors.allow_methods"
           (VStr "get put") Sample.one validateCoreCorsAllowMethods
           (mkDoc None "core.cors.allow_methods" (VStr "GET, PUT"))
           Hs eq_refl cors_allow_methods_value_only eq_refl).
Defined.

Lemma set_keeps_one_per_key_witness :
  exists saved c',
    set Sample.getValidator "core.cors.allow_methods" (VStr "get put")
      Sample.one = (Ok saved, c') /\
    stored (documents c') /\
    (NoDup (List.map Store.key (documents Sample.one)) ->
     NoDup (List.map Store.key (documents c'))) /\
    length (documents c') = 2%nat.
Proof.
  assert (Hs : stored (documents Sample.one))
    by (apply (bool_decide_unpack _); vm_compute; exact I).
  exact (set_keeps_one_per_key Sample.getValidator
           "core.cors.allow_methods"
           (VStr "get put") Sample.one validateCoreCorsAllowMethods
           (mkDoc None "core.cors.allow_methods" (VStr "GET, PUT"))
           Hs eq_refl cors_allow_methods_value_only eq_refl).
Defined.

(** ** [unset] and [reconnect] *)

Lemma find_filter_other k k' (l : list Doc) :
  k' <> k ->
  List.find (has_key k') (List.filter (fun d => negb (has_key k d)) l)
  = List.find (has_key k') l.
Proof.
  intros Hne. induction l as [|d r IH]; [reflexivity|].
  simpl. destruct (has_key k d) eqn:Ek; simpl.
  - assert (E : has_key k' d = false).
    { apply not_true_is_false. rewrite has_key_true.
      apply has_key_true in Ek. congruence. }
    rewrite E. exact IH.
  - destruct (has_key k' d); [reflexivity|exact IH].
Qed.

(** X6.  [unset] of one key succeeds on a stored collection and changes
    neither the stored document of any other key nor the index
    catalogue. *)
Theorem unset_other_keys (key : string) (c : Collection) :
  stored (documents c) ->
  exists c',
    unset key c = (Ok tt, c') /\
    indices c' = indices c /\
    forall key', key' <> key ->
      fst (findOne key' c') = fst (findOne key' c).
Proof.
  intros Hs. eexists. split; [apply unset_run, Hs|]. split; [reflexivity|].
  intros key' Hne. unfold findOne. simpl.
  rewrite find_filter_other by exact Hne. reflexivity.
Qed.

Lemma unset_other_keys_witness :
  exists c',
    unset "core.cookie_lifetime" Sample.old = (Ok tt, c') /\
    fst (findOne "core.add_to_group_policy" c')
    = Ok (Some (mkDoc (Some 2%N) "core.add_to_group_policy" (VStr "never"))).
Proof.
  assert (Hs : stored (documents Sample.old))
    by (apply (bool_decide_unpack _); vm_compute; exact I).
  destruct (unset_other_keys "core.cookie_lifetime" Sample.old Hs)
    as (c' & Hu & _ & Ho).
  exists c'. split; [exact Hu|].
  rewrite (Ho "core.add_to_group_policy"); [reflexivity|discriminate].
Defined.

(** X7.  [unset] keeps the collection stored, and a second [unset] of the
    same key finds nothing to delete: it succeeds and changes nothing. *)
Theorem unset_twice (key : string) (c : Collection) :
  stored (documents c) ->
  exists c',
    unset key c = (Ok tt, c') /\
    stored (documents c') /\
    unset key c' = (Ok tt, c').
Proof.
  intros Hs. eexists. split; [apply unset_run, Hs|].
  assert (Hs' : stored (List.filter (fun d => negb (has_key key d))
                          (documents c)))
    by (apply stored_filter, Hs).
  split; [exact Hs'|].
  rewrite unset_run by exact Hs'. simpl. f_equal. f_equal.
  rewrite filter_twice. apply filter_ext. intros d. apply andb_diag.
Qed.

Lemma unset_twice_witness :
  exists c',
    unset "core.cookie_lifetime" Sample.old = (Ok tt, c') /\
    stored (documents c') /\
    unset "core.cookie_lifetime" c' = (Ok tt, c').
Proof.
  apply (unset_twice "core.cookie_lifetime" Sample.old).
  apply (bool_decide_unpack _). vm_compute. exact I.
Defined.

Section ReconnectRun.

Lemma drop_all_lookup names (ix : gmap string IndexInfo) n :
  drop_all names ix !! n = if bool_decide (n ∈ names) then None else ix !! n.
Proof.
  unfold drop_all. revert ix. induction names as [|x r IH]; intros ix; simpl.
  - reflexivity.
  - rewrite IH. destruct (decide (n = x)) as [->|Hne].
    + rewrite lookup_delete_eq.
      rewrite (bool_decide_eq_true_2 (x ∈ x :: r)) by apply list_elem_of_here.
      destruct (bool_decide (x ∈ r)); reflexivity.
    + rewrite lookup_delete_ne by congruence.
      apply (f_equal (fun b : bool => if b then None else ix !! n)).
      apply bool_decide_ext. rewrite elem_of_cons. tauto.
Qed.

Lemma in_key_index_names (ix : gmap string IndexInfo) n :
  n ∈ List.map fst (List.filter (fun p => on_key (snd p)) (map_to_list ix))
  <-> exists info, ix !! n = Some info /\ on_key info = true.
Proof.
  rewrite list_elem_of_In, in_map_iff. split.
  - intros ([n' i] & Hn & Hin). simpl in Hn. subst n'.
    apply filter_In in Hin. destruct Hin as [Hin Hk]. exists i.
    split; [|exact Hk]. apply elem_of_map_to_list, list_elem_of_In, Hin.
  - intros (i & Hi & Hk). exists (n, i). split; [reflexivity|].
    apply filter_In. split; [|exact Hk].
    apply list_elem_of_In, elem_of_map_to_list, Hi.
Qed.

(** The collection that the repair leaves. *)
Lemma reconnect_run docs (ix : gmap string IndexInfo) :
  ~ has_unique_key_index ix -> stored docs ->
  reconnect (mkCollection docs ix) =
  (Ok tt,
   mkCollection (delete_all (duplicate_ids docs) docs)
     (<["key_1" := key_index]>
        (drop_all (List.map fst (List.filter (fun p => on_key (snd p))
                                   (map_to_list ix))) ix))).
Proof.
  intros Hu Hs.
  unfold reconnect, Model_reconnect, bind, ret, try_except, index_information.
  simpl.
  pose proof (has_unique_key_index_scan ix) as Hscan.
  pose proof (scan_indices_not_found (map_to_list ix) []) as Hnames.
  destruct (scan_indices (map_to_list ix) []) as [b names]. simpl in *.
  assert (b = false) as ->.
  { destruct b; [|reflexivity]. exfalso. apply Hu, Hscan. reflexivity. }
  specialize (Hnames eq_refl). subst names. simpl.
  rewrite for_each_drop_index;
    [|apply key_index_names_NoDup|apply key_index_names_present].
  unfold aggregate_duplicates. simpl.
  rewrite for_each_duplicates by exact Hs.
  fold (duplicate_ids docs).
  destruct (repaired_one_per_key docs Hs) as [Hkeys _].
  unfold create_index_key_unique. simpl.
  rewrite bool_decide_eq_true_2 by exact Hkeys. reflexivity.
Qed.

(** With a unique index on ['key'] there is nothing to repair. *)
Lemma reconnect_unique (c : Collection) :
  has_unique_key_index (indices c) -> reconnect c = (Ok tt, c).
Proof.
  intros Hu. destruct c as [docs ix]. simpl in *.
  unfold reconnect, Model_reconnect, bind, ret, try_except, index_information.
  simpl. apply has_unique_key_index_scan in Hu.
  destruct (scan_indices (map_to_list ix) []) as [b names]. simpl in *.
  subst b. reflexivity.
Qed.

Lemma has_unique_key_index_dec (ix : gmap string IndexInfo) :
  has_unique_key_index ix \/ ~ has_unique_key_index ix.
Proof.
  destruct (fst (scan_indices (map_to_list ix) [])) eqn:E.
  - left. apply has_unique_key_index_scan, E.
  - right. intros H. apply has_unique_key_index_scan in H. congruence.
Qed.

End ReconnectRun.

(** X8.  On a stored collection [reconnect] always succeeds, and running
    it again on the collection it leaves changes nothing. *)
Theorem reconnect_twice (c : Collection) :
  stored (documents c) ->
  exists c',
    reconnect c = (Ok tt, c') /\
    stored (documents c') /\
    reconnect c' = (Ok tt, c').
Proof.
  intros Hs. destruct (has_unique_key_index_dec (indices c)) as [Hu|Hu].
  - exists c. pose proof (reconnect_unique c Hu). auto.
  - destruct c as [docs ix]. simpl in *.
    eexists. split; [apply reconnect_run; assumption|].
    split; [apply stored_filter, Hs|].
    apply reconnect_unique. exists "key_1", key_index.
    split; [apply lookup_insert_eq|]. split; reflexivity.
Qed.

Lemma reconnect_twice_witness :
  exists c',
    reconnect Sample.old = (Ok tt, c') /\
    stored (documents c') /\
    reconnect c' = (Ok tt, c').
Proof.
  apply (reconnect_twice Sample.old).
  apply (bool_decide_unpack _). vm_compute. exact I.
Defined.

Lemma NoDup_map_inj {A B} (f : A -> B) (l : list A) x y :
  NoDup (List.map f l) -> In x l -> In y l -> f x = f y -> x = y.
Proof.
  induction l as [|a r IH]; intros Hn Hx Hy E; [destruct Hx|].
  simpl in Hn. apply NoDup_cons in Hn. destruct Hn as [Ha Hn].
  destruct Hx as [->|Hx], Hy as [->|Hy].
  - reflexivity.
  - exfalso. apply Ha. rewrite list_elem_of_In, E. apply in_map, Hy.
  - exfalso. apply Ha. rewrite list_elem_of_In, <- E. apply in_map, Hx.
  - apply IH; assumption.
Qed.

(** X9.  Without a unique index on ['key'], on a stored collection whose
    keys are already distinct, [reconnect] deletes nothing: the documents
    are the same, in the same order. *)
Theorem reconnect_distinct_keys (c : Collection) :
  ~ has_unique_key_index (indices c) ->
  stored (documents c) ->
  NoDup (List.map key (documents c)) ->
  exists c',
    reconnect c = (Ok tt, c') /\ documents c' = documents c.
Proof.
  intros Hu Hs Hk. destruct c as [docs ix]. simpl in *.
  eexists. split; [apply reconnect_run; assumption|]. simpl.
  apply filter_all. intros d Hd. apply forallb_forall. intros i Hi.
  destruct (has_id i d) eqn:E; [|reflexivity]. exfalso.
  apply has_id_true in E.
  apply (in_duplicate_ids docs d i Hs Hd E) in Hi.
  destruct Hi as (x & j & Hx & Hkx & Hj & Hlt).
  assert (x = d) by (eapply NoDup_map_inj; eauto).
  subst x. rewrite E in Hj. inversion Hj. lia.
Qed.

Lemma reconnect_distinct_keys_witness :
  exists c',
    reconnect Sample.one = (Ok tt, c') /\
    documents c' = documents Sample.one.
Proof.
  apply (reconnect_distinct_keys Sample.one).
  - intros H. apply has_unique_key_index_scan in H.
    vm_compute in H. discriminate.
  - apply (bool_decide_unpack _). vm_compute. exact I.
  - apply (bool_decide_unpack _). vm_compute. exact I.
Defined.

(** X10.  Without a unique index on ['key'], on a stored collection,
    [reconnect] drops every index whose first field is ['key'], leaves
    every other index as it was, and enters the unique index under the
    name ["key_1"]. *)
Theorem reconnect_catalogue (c : Collection) :
  ~ has_unique_key_index (indices c) ->
  stored (documents c) ->
  exists c',
    reconnect c = (Ok tt, c') /\
    indices c' !! "key_1" = Some key_index /\
    forall name info,
      name <> "key_1" -> indices c !! name = Some info ->
      indices c' !! name = if on_key info then None else Some info.
Proof.
  intros Hu Hs. destruct c as [docs ix]. simpl in *.
  eexists. split; [apply reconnect_run; assumption|]. simpl.
  split; [apply lookup_insert_eq|].
  intros name info Hne Hinfo.
  rewrite lookup_insert_ne by congruence.
  rewrite drop_all_lookup. destruct (on_key info) eqn:Ek.
  - rewrite bool_decide_eq_true_2; [reflexivity|].
    apply in_key_index_names. exists info. auto.
  - rewrite bool_decide_eq_false_2; [exact Hinfo|].
    intros H. apply in_key_index_names in H.
    destruct H as (info' & Hi' & Hk'). congruence.
Qed.

Lemma reconnect_catalogue_witness :
  exists c',
    reconnect
      (mkCollection (documents Sample.old)
         (<["key_old" := Sample.old_key_index]>
            (<["_id_" := Sample.id_index]> ∅)))
    = (Ok tt, c') /\
    indices c' !! "key_1" = Some key_index /\
    indices c' !! "key_old" = None /\
    indices c' !! "_id_" = Some Sample.id_index.
Proof.
  destruct (reconnect_catalogue
              (mkCollection (documents Sample.old)
                 (<["key_old" := Sample.old_key_index]>
                    (<["_id_" := Sample.id_index]> ∅))))
    as (c' & Hr & Hk & Hother).
  - intros H. apply has_unique_key_index_scan in H.
    vm_compute in H. discriminate.
  - apply (bool_decide_unpack _). vm_compute. exact I.
  - exists c'. split; [exact Hr|]. split; [exact Hk|]. split.
    + apply (Hother "key_old" Sample.old_key_index); [discriminate|].
      vm_compute. reflexivity.
    + apply (Hother "_id_" Sample.id_index); [discriminate|].
      vm_compute. reflexivity.
Defined.

(** ** Normal forms of the CORS lists *)

Section TokenFacts.

Lemma push_word_tokens w ws :
  clean w = true -> Forall (fun t => token t = true) ws ->
  Forall (fun t => token t = true) (push_word w ws).
Proof.
  intros Hw Hws. destruct w as [|c r]; [exact Hws|].
  apply Forall_cons_2; [|exact Hws]. unfold token. rewrite Hw. reflexivity.
Qed.

Lemma words_tokens s :
  clean (fst (words is_separator s)) = true /\
  Forall (fun t => token t = true) (snd (words is_separator s)).
Proof.
  induction s as [|c r [Hw Hws]]; simpl; [split; [reflexivity|apply Forall_nil_2]|].
  destruct (words is_separator r) as [w ws]. simpl in *.
  destruct (is_separator c) eqn:E; simpl.
  - split; [reflexivity|]. apply push_word_tokens; assumption.
  - rewrite E. simpl. split; assumption.
Qed.

(** What a split yields are tokens. *)
Lemma split_by_tokens s :
  Forall (fun t => token t = true) (split_by is_separator s).
Proof.
  unfold split_by. pose proof (words_tokens s) as [Hw Hws].
  destruct (words is_separator s) as [w ws]. simpl in *.
  apply push_word_tokens; assumption.
Qed.

Lemma words_clean_app x rest :
  clean x = true ->
  words is_separator (x ++ rest) =
  (x ++ fst (words is_separator rest), snd (words is_separator rest)).
Proof.
  induction x as [|c r IH]; intros Hx.
  - change (EmptyString ++ rest) with rest.
    destruct (words is_separator rest); reflexivity.
  - change (String c r ++ rest) with (String c (r ++ rest)).
    simpl in Hx. apply andb_prop in Hx. destruct Hx as [Hc Hr].
    apply negb_true_iff in Hc. cbn [words]. rewrite (IH Hr), Hc.
    reflexivity.
Qed.

Lemma append_empty_r s : s ++ EmptyString = s.
Proof.
  induction s as [|c r IH]; [reflexivity|].
  change (String c r ++ EmptyString) with (String c (r ++ EmptyString)).
  rewrite IH. reflexivity.
Qed.

Lemma split_by_token x : token x = true -> split_by is_separator x = [x].
Proof.
  unfold token. intros H. apply andb_prop in H. destruct H as [Hne Hc].
  unfold split_by. rewrite <- (append_empty_r x) at 1.
  rewrite words_clean_app by exact Hc. simpl.
  rewrite append_empty_r. destruct x; [discriminate|reflexivity].
Qed.

(** Joining tokens with [", "] and splitting again gives the tokens
    back. *)
Lemma split_by_join ts :
  Forall (fun t => token t = true) ts ->
  split_by is_separator (join ", " ts) = ts.
Proof.
  induction ts as [|x r IH]; intros H; [reflexivity|].
  pose proof (Forall_inv H) as Hx. apply Forall_inv_tail in H.
  specialize (IH H). destruct r as [|y r]; [apply split_by_token, Hx|].
  change (join ", " (x :: y :: r)) with (x ++ ", " ++ join ", " (y :: r)).
  unfold token in Hx. apply andb_prop in Hx. destruct Hx as [Hne Hc].
  unfold split_by in *. rewrite words_clean_app by exact Hc.
  change (", " ++ join ", " (y :: r))
    with (String "," (String " " (join ", " (y :: r)))).
  cbn [words].
  destruct (words is_separator (join ", " (y :: r))) as [w ws].
  change (is_separator ",") with true. change (is_separator " ") with true.
  cbn [fst snd]. rewrite append_empty_r.
  change (push_word EmptyString (push_word w ws)) with (push_word w ws).
  rewrite IH. destruct x; [discriminate|reflexivity].
Qed.

Lemma is_separator_upper_char c :
  is_separator (upper_char c) = is_separator c.
Proof. destruct c as [[] [] [] [] [] [] [] []]; reflexivity. Qed.

Lemma upper_char_twice c : upper_char (upper_char c) = upper_char c.
Proof. destruct c as [[] [] [] [] [] [] [] []]; reflexivity. Qed.

Lemma upper_twice s : upper (upper s) = upper s.
Proof.
  induction s as [|c r IH]; [reflexivity|].
  unfold upper in *. simpl. rewrite upper_char_twice, IH. reflexivity.
Qed.

Lemma token_upper s : token s = true -> token (upper s) = true.
Proof.
  unfold token. intros H. apply andb_prop in H. destruct H as [Hne Hc].
  apply andb_true_intro. split; [destruct s; [discriminate|reflexivity]|].
  clear Hne. induction s as [|c r IH]; [reflexivity|].
  unfold upper in *. simpl in *. apply andb_prop in Hc.
  destruct Hc as [Hc Hr].
  rewrite is_separator_upper_char, Hc. simpl. apply IH, Hr.
Qed.

Lemma Forall_dedup (P : string -> Prop) l : Forall P l -> Forall P (dedup l).
Proof.
  rewrite !List.Forall_forall. intros H x Hx. apply H, in_dedup, Hx.
Qed.

Lemma filter_same {A} (p : A -> bool) (l : list A) :
  List.filter p (List.filter p l) = List.filter p l.
Proof. rewrite filter_twice. apply filter_ext. intros x. apply andb_diag. Qed.

Lemma dedup_twice l : dedup (dedup l) = dedup l.
Proof.
  induction l as [|x r IH]; [reflexivity|].
  simpl. rewrite dedup_filter, IH, filter_same. reflexivity.
Qed.

Lemma map_fixed {A} (f : A -> A) (l : list A) :
  Forall (fun x => f x = x) l -> List.map f l = l.
Proof.
  induction l as [|x r IH]; intros H; [reflexivity|].
  simpl. rewrite (Forall_inv H), (IH (Forall_inv_tail H)). reflexivity.
Qed.

End TokenFacts.

Lemma normalize_methods_twice s :
  normalize_methods (normalize_methods s) = normalize_methods s.
Proof.
  unfold normalize_methods at 1 3.
  set (ts := dedup (List.map upper (split_by is_separator s))).
  assert (Htok : Forall (fun t => token t = true) ts).
  { apply Forall_dedup. apply List.Forall_forall. intros t Ht.
    apply in_map_iff in Ht. destruct Ht as (u & <- & Hu).
    apply token_upper.
    pose proof (split_by_tokens s) as H. rewrite List.Forall_forall in H.
    apply H, Hu. }
  assert (Hup : Forall (fun t => upper t = t) ts).
  { apply Forall_dedup. apply List.Forall_forall. intros t Ht.
    apply in_map_iff in Ht. destruct Ht as (u & <- & _). apply upper_twice. }
  unfold normalize_methods. fold ts.
  rewrite split_by_join by exact Htok.
  rewrite map_fixed by exact Hup. unfold ts. rewrite dedup_twice.
  reflexivity.
Qed.

Lemma normalize_headers_twice s :
  normalize_headers (normalize_headers s) = normalize_headers s.
Proof.
  unfold normalize_headers.
  rewrite split_by_join, dedup_twice; [reflexivity|].
  apply Forall_dedup, split_by_tokens.
Qed.

Lemma set_value_same v d : value d = v -> set_value v d = d.
Proof. intros <-. destruct d; reflexivity. Qed.

Lemma set_value_twice v w d : set_value v (set_value w d) = set_value v d.
Proof. reflexivity. Qed.

Lemma cors_allow_methods_run doc s :
  value doc = VStr s ->
  validateCoreCorsAllowMethods doc
  = Ok (set_value (VStr (normalize_methods s)) doc).
Proof.
  intros Hs. unfold validateCoreCorsAllowMethods, normalize_methods.
  rewrite Hs, fromkeys_dedup, split_upper, split_strip, split_replace_comma.
  reflexivity.
Qed.

Lemma cors_allow_headers_run doc s :
  value doc = VStr s ->
  validateCoreCorsAllowHeaders doc
  = Ok (set_value (VStr (normalize_headers s)) doc).
Proof.
  intros Hs. unfold validateCoreCorsAllowHeaders, normalize_headers.
  rewrite Hs, fromkeys_dedup, split_strip, split_replace_comma.
  reflexivity.
Qed.

Lemma cors_allow_origin_run doc s :
  value doc = VStr s ->
  validateCoreCorsAllowOrigin doc
  = Ok (set_value (VStr (normalize_origin s)) doc).
Proof.
  intros Hs. unfold validateCoreCorsAllowOrigin, normalize_origin.
  rewrite Hs, fromkeys_dedup, split_strip, split_replace_comma.
  reflexivity.
Qed.

(** X11.  The CORS-allowed-methods validator is idempotent: a value it
    has normalized is accepted again and left as it is, so storing what
    was read back changes nothing. *)
Theorem cors_allow_methods_idempotent (doc d' : Doc) :
  validateCoreCorsAllowMethods doc = Ok d' ->
  validateCoreCorsAllowMethods d' = Ok d'.
Proof.
  intros H. destruct (value doc) as [| | | |s| | |] eqn:E;
    try (unfold validateCoreCorsAllowMethods in H; rewrite E in H;
         discriminate).
  rewrite (cors_allow_methods_run doc s E) in H. inversion H. subst d'.
  rewrite (cors_allow_methods_run
             (set_value (VStr (normalize_methods s)) doc)
             (normalize_methods s) eq_refl).
  rewrite normalize_methods_twice. reflexivity.
Qed.

Lemma cors_allow_methods_idempotent_witness :
  validateCoreCorsAllowMethods
    (mkDoc None "core.cors.allow_methods" (VStr "GET, POST"))
  = Ok (mkDoc None "core.cors.allow_methods" (VStr "GET, POST")).
Proof.
  apply (cors_allow_methods_idempotent
           (mkDoc None "core.cors.allow_methods" (VStr "get, GET, post"))).
  reflexivity.
Defined.

(** X12.  On a string the CORS-allowed-headers validator stores the
    tokens between commas and white space, first occurrences only and in
    their own case, joined with [", "]; the result is a fixed point of
    the validator; a value that is not a string is refused on field
    ['value']. *)
Theorem cors_allow_headers_spec (doc : Doc) :
  (forall s, value doc = VStr s ->
     validateCoreCorsAllowHeaders doc
     = Ok (set_value (VStr (normalize_headers s)) doc)) /\
  (forall d', validateCoreCorsAllowHeaders doc = Ok d' ->
     validateCoreCorsAllowHeaders d' = Ok d') /\
  (is_string (value doc) = false ->
     exists message,
       validateCoreCorsAllowHeaders doc
       = Raise (ValidationException message (Some "value"))).
Proof.
  split; [|split].
  - intros s Hs. apply cors_allow_headers_run, Hs.
  - intros d' H. destruct (value doc) as [| | | |s| | |] eqn:E;
      try (unfold validateCoreCorsAllowHeaders in H; rewrite E in H;
           discriminate).
    rewrite (cors_allow_headers_run doc s E) in H. inversion H. subst d'.
    rewrite (cors_allow_headers_run
               (set_value (VStr (normalize_headers s)) doc)
               (normalize_headers s) eq_refl).
    rewrite normalize_headers_twice. reflexivity.
  - intros Hn. unfold validateCoreCorsAllowHeaders.
    destruct (value doc); try discriminate; eexists; reflexivity.
Qed.

Lemma cors_allow_headers_spec_witness :
  validateCoreCorsAllowHeaders
    (mkDoc None "core.cors.allow_headers" (VStr " Accept,accept  Accept"))
  = Ok (mkDoc None "core.cors.allow_headers" (VStr "Accept, accept")) /\
  validateCoreCorsAllowHeaders
    (mkDoc None "core.cors.allow_headers" (VStr "Accept, accept"))
  = Ok (mkDoc None "core.cors.allow_headers" (VStr "Accept, accept")).
Proof.
  split.
  - apply (proj1 (cors_allow_headers_spec
                    (mkDoc None "core.cors.allow_headers"
                       (VStr " Accept,accept  Accept")))
             " Accept,accept  Accept").
    reflexivity.
  - apply (proj1 (proj2 (cors_allow_headers_spec
                    (mkDoc None "core.cors.allow_headers"
                       (VStr " Accept,accept  Accept"))))).
    reflexivity.
Defined.

Lemma rstrip_char_twice a s :
  rstrip_char a (rstrip_char a s) = rstrip_char a s.
Proof.
  induction s as [|c r IH]; [reflexivity|].
  simpl. destruct (rstrip_char a r) as [|c' r'] eqn:E.
  - destruct (Ascii.eqb c a) eqn:Ec; [reflexivity|].
    simpl. rewrite Ec. reflexivity.
  - change (rstrip_char a (String c (String c' r')))
      with (match rstrip_char a (String c' r') with
            | EmptyString =>
                if Ascii.eqb c a then EmptyString else String c EmptyString
            | r'' => String c r''
            end).
    rewrite IH. reflexivity.
Qed.

(** X13.  On a string the CORS-allowed-origin validator stores the tokens
    between commas and white space with their trailing slashes removed,
    duplicates being told after the slashes are gone, joined with
    [", "]; no origin it lists ends with a slash; a value that is not a
    string is refused on field ['value']. *)
Theorem cors_allow_origin_spec (doc : Doc) :
  (forall s, value doc = VStr s ->
     validateCoreCorsAllowOrigin doc
     = Ok (set_value (VStr (normalize_origin s)) doc) /\
     Forall (fun t => rstrip_char "/" t = t)
       (dedup (List.map (rstrip_char "/") (split_by is_separator s)))) /\
  (is_string (value doc) = false ->
     exists message,
       validateCoreCorsAllowOrigin doc
       = Raise (ValidationException message (Some "value"))).
Proof.
  split.
  - intros s Hs. split; [apply cors_allow_origin_run, Hs|].
    apply Forall_dedup, List.Forall_forall. intros t Ht.
    apply in_map_iff in Ht. destruct Ht as (u & <- & _).
    apply rstrip_char_twice.
  - intros Hn. unfold validateCoreCorsAllowOrigin.
    destruct (value doc); try discriminate; eexists; reflexivity.
Qed.

Lemma cors_allow_origin_spec_witness :
  validateCoreCorsAllowOrigin
    (mkDoc None "core.cors.allow_origin"
       (VStr "http://a.org/, http://b.org// http://a.org"))
  = Ok (mkDoc None "core.cors.allow_origin"
          (VStr "http://a.org, http://b.org")).
Proof.
  apply (proj1 (proj1 (cors_allow_origin_spec
                  (mkDoc None "core.cors.allow_origin"
                     (VStr "http://a.org/, http://b.org// http://a.org")))
           "http://a.org/, http://b.org// http://a.org" eq_refl)).
Defined.

Section StripFacts.

Lemma rstrip_twice s : rstrip (rstrip s) = rstrip s.
Proof.
  induction s as [|c r IH]; [reflexivity|].
  simpl. destruct (rstrip r) as [|c' r'] eqn:E.
  - destruct (isspace c) eqn:Ec; [reflexivity|].
    simpl. rewrite Ec. reflexivity.
  - change (rstrip (String c (String c' r')))
      with (match rstrip (String c' r') with
            | EmptyString =>
                if isspace c then EmptyString else String c EmptyString
            | r'' => String c r''
            end).
    rewrite IH. reflexivity.
Qed.

Lemma lstrip_head s :
  match lstrip s with
  | EmptyString => True
  | String c _ => isspace c = false
  end.
Proof.
  induction s as [|c r IH]; simpl; [exact I|].
  destruct (isspace c) eqn:E; [exact IH|exact E].
Qed.

Lemma lstrip_rstrip_head c r :
  isspace c = false -> lstrip (rstrip (String c r)) = rstrip (String c r).
Proof.
  intros E. simpl. destruct (rstrip r); rewrite ?E; simpl; rewrite E;
    reflexivity.
Qed.

Lemma strip_twice s : strip (strip s) = strip s.
Proof.
  unfold strip. pose proof (lstrip_head s) as H.
  destruct (lstrip s) as [|c r]; [reflexivity|].
  rewrite (lstrip_rstrip_head c r H). apply rstrip_twice.
Qed.

End StripFacts.

(** X14.  On a string the email-host validator stores the value without
    its surrounding white space, and the stored value is a fixed point of
    the validator; a value that is not a string is refused on field
    ['value']. *)
Theorem email_host_spec (doc : Doc) :
  (forall s, value doc = VStr s ->
     validateCoreEmailHost doc = Ok (set_value (VStr (strip s)) doc)) /\
  (forall d', validateCoreEmailHost doc = Ok d' ->
     validateCoreEmailHost d' = Ok d') /\
  (is_string (value doc) = false ->
     validateCoreEmailHost doc
     = Raise (ValidationException "Email host must be a string."
                (Some "value"))).
Proof.
  unfold validateCoreEmailHost. split; [|split].
  - intros s Hs. rewrite Hs. reflexivity.
  - intros d' H. destruct (value doc); try discriminate.
    inversion H. subst d'. simpl. rewrite strip_twice. reflexivity.
  - intros Hn. destruct (value doc); try discriminate; reflexivity.
Qed.

Lemma email_host_spec_witness :
  validateCoreEmailHost (mkDoc None "core.email_host" (VStr "  smtp.org "))
  = Ok (mkDoc None "core.email_host" (VStr "smtp.org")) /\
  validateCoreEmailHost (mkDoc None "core.email_host" (VStr "smtp.org"))
  = Ok (mkDoc None "core.email_host" (VStr "smtp.org")) /\
  validateCoreEmailHost (mkDoc None "core.email_host" (VInt 25))
  = Raise (ValidationException "Email host must be a string."
             (Some "value")).
Proof.
  split; [|split].
  - apply (proj1 (email_host_spec
                    (mkDoc None "core.email_host" (VStr "  smtp.org ")))
             "  smtp.org " eq_refl).
  - apply (proj1 (proj2 (email_host_spec
                    (mkDoc None "core.email_host" (VStr "  smtp.org "))))).
    reflexivity.
  - apply (proj2 (proj2 (email_host_spec
                    (mkDoc None "core.email_host" (VInt 25))))).
    reflexivity.
Defined.

(** ** Numbers, policies and exact words *)

(** X15.  What the three numeric validators accept is stored as an
    integer within the bound (above zero for the cookie lifetime and the
    SMTP port, zero or more for the upload chunk size), and the stored
    document is a fixed point of its validator. *)
Theorem numeric_validators_accept (doc d' : Doc) :
  (validateCoreCookieLifetime doc = Ok d' ->
   exists n, 0 < n /\ d' = set_value (VInt n) doc /\
             validateCoreCookieLifetime d' = Ok d') /\
  (validateCoreSmtpPort doc = Ok d' ->
   exists n, 0 < n /\ d' = set_value (VInt n) doc /\
             validateCoreSmtpPort d' = Ok d') /\
  (validateCoreUploadMinimumChunkSize doc = Ok d' ->
   exists n, 0 <= n /\ d' = set_value (VInt n) doc /\
             validateCoreUploadMinimumChunkSize d' = Ok d').
Proof.
  unfold validateCoreCookieLifetime, validateCoreSmtpPort,
    validateCoreUploadMinimumChunkSize.
  repeat split; intros H;
    destruct (int (value doc)) as [n|e] eqn:E;
    try (destruct e; discriminate).
  - destruct (0 <? n) eqn:Hn; [|discriminate]. inversion H. subst d'.
    exists n. apply Z.ltb_lt in Hn. repeat split; [exact Hn|].
    simpl. apply Z.ltb_lt in Hn. rewrite Hn. reflexivity.
  - destruct (0 <? n) eqn:Hn; [|discriminate]. inversion H. subst d'.
    exists n. apply Z.ltb_lt in Hn. repeat split; [exact Hn|].
    simpl. apply Z.ltb_lt in Hn. rewrite Hn. reflexivity.
  - destruct (0 <=? n) eqn:Hn; [|discriminate]. inversion H. subst d'.
    exists n. apply Z.leb_le in Hn. repeat split; [exact Hn|].
    simpl. apply Z.leb_le in Hn. rewrite Hn. reflexivity.
Qed.

Lemma numeric_validators_accept_witness :
  (exists n, 0 < n /\
     mkDoc None "core.smtp.port" (VInt 25)
     = set_value (VInt n) (mkDoc None "core.smtp.port" (VStr " 25 "))) /\
  (exists n, 0 <= n /\
     mkDoc None "core.upload_minimum_chunk_size" (VInt 0)
     = set_value (VInt n)
         (mkDoc None "core.upload_minimum_chunk_size" (VStr "0"))).
Proof.
  split.
  - destruct (proj1 (proj2 (numeric_validators_accept
                (mkDoc None "core.smtp.port" (VStr " 25 "))
                (mkDoc None "core.smtp.port" (VInt 25)))) eq_refl)
      as (n & Hn & Hd & _).
    exists n. split; assumption.
  - destruct (proj2 (proj2 (numeric_validators_accept
                (mkDoc None "core.upload_minimum_chunk_size" (VStr "0"))
                (mkDoc None "core.upload_minimum_chunk_size" (VInt 0))))
                eq_refl)
      as (n & Hn & Hd & _).
    exists n. split; assumption.
Defined.

(** X16.  The numeric validators fail in three ways only: with the
    [ValidationException] on field ['value'], with the [TypeError] of
    [int] on a value that is neither a number nor a string, or with the
    [OverflowError] of [int] on an infinite float, which their
    [except ValueError] does not catch. *)
Theorem numeric_validators_failures (doc : Doc) (e : Exn) :
  validateCoreCookieLifetime doc = Raise e \/
  validateCoreSmtpPort doc = Raise e \/
  validateCoreUploadMinimumChunkSize doc = Raise e ->
  (exists message, e = ValidationException message (Some "value")) \/
  (e = TypeError /\ int (value doc) = Raise TypeError) \/
  (e = OverflowError /\
   exists negative, value doc = VFloat (Infinite negative)).
Proof.
  unfold validateCoreCookieLifetime, validateCoreSmtpPort,
    validateCoreUploadMinimumChunkSize, int.
  intros [H|[H|H]];
    destruct (value doc) as [|b|n|[m x|neg|]|s|o|l|d];
    try destruct (int_of_string s);
    cbn in H;
    repeat match type of H with
           | context [if ?b then _ else _] => destruct b eqn:?
           end;
    try discriminate; inversion H; subst;
    first [ left; eexists; reflexivity
          | right; left; split; reflexivity
          | right; right; split; [reflexivity|eexists; reflexivity] ].
Qed.

Lemma numeric_validators_failures_witness :
  (exists message,
     ValidationException "SMTP port must be an integer > 0." (Some "value")
     = ValidationException message (Some "value")) \/
  (ValidationException "SMTP port must be an integer > 0." (Some "value")
   = TypeError /\
   int (value (mkDoc None "core.smtp.port" (VStr "-1"))) = Raise TypeError)
  \/
  (ValidationException "SMTP port must be an integer > 0." (Some "value")
   = OverflowError /\
   exists negative,
     value (mkDoc None "core.smtp.port" (VStr "-1"))
     = VFloat (Infinite negative)).
Proof.
  apply (numeric_validators_failures
           (mkDoc None "core.smtp.port" (VStr "-1"))).
  right. left. reflexivity.
Defined.

(** The three failures of the cookie lifetime validator, one value for
    each: a number that is not positive, a list and an infinite float. *)
Lemma numeric_validators_failures_examples :
  validateCoreCookieLifetime (mkDoc None "core.cookie_lifetime" (VInt 0))
  = Raise (ValidationException "Cookie lifetime must be an integer > 0."
             (Some "value")) /\
  validateCoreCookieLifetime
    (mkDoc None "core.cookie_lifetime" (VFloat NaN))
  = Raise (ValidationException "Cookie lifetime must be an integer > 0."
             (Some "value")) /\
  validateCoreCookieLifetime (mkDoc None "core.cookie_lifetime" (VList []))
  = Raise TypeError /\
  validateCoreCookieLifetime
    (mkDoc None "core.cookie_lifetime" (VFloat (Infinite false)))
  = Raise OverflowError.
Proof. repeat split. Qed.

Lemma lower_char_twice c : lower_char (lower_char c) = lower_char c.
Proof. destruct c as [[] [] [] [] [] [] [] []]; reflexivity. Qed.

Lemma lower_twice s : lower (lower s) = lower s.
Proof.
  induction s as [|c r IH]; [reflexivity|].
  unfold lower in *. simpl. rewrite lower_char_twice, IH. reflexivity.
Qed.

(** X17.  The registration-policy and email-verification validators
    accept a string exactly when its lower case is one of their three
    words, store that lower case, and accept the stored document again
    unchanged; a value that is not a string has no [lower] and leaves
    them with an [AttributeError]. *)
Theorem policy_validators_spec (doc : Doc) :
  (forall s, value doc = VStr s ->
     validateCoreRegistrationPolicy doc =
     (if in_strings (lower s) ["open"; "closed"; "approve"]
      then Ok (set_value (VStr (lower s)) doc)
      else Raise (ValidationException
             ("Registration policy must be " ++ quoted "open" ++ ", "
              ++ quoted "closed" ++ ", or " ++ quoted "approve" ++ ".")
             (Some "value"))) /\
     validateCoreEmailVerification doc =
     (if in_strings (lower s) ["required"; "optional"; "disabled"]
      then Ok (set_value (VStr (lower s)) doc)
      else Raise (ValidationException
             ("Email verification must be " ++ quoted "required" ++ ", "
              ++ quoted "optional" ++ ", or " ++ quoted "disabled" ++ ".")
             (Some "value")))) /\
  (forall d', validateCoreRegistrationPolicy doc = Ok d' ->
              validateCoreRegistrationPolicy d' = Ok d') /\
  (forall d', validateCoreEmailVerification doc = Ok d' ->
              validateCoreEmailVerification d' = Ok d') /\
  (is_string (value doc) = false ->
     validateCoreRegistrationPolicy doc = Raise AttributeError /\
     validateCoreEmailVerification doc = Raise AttributeError).
Proof.
  unfold validateCoreRegistrationPolicy, validateCoreEmailVerification,
    value_lower, rbind.
  split; [|split; [|split]].
  - intros s Hs. rewrite Hs.
    split; destruct (in_strings (lower s) _); reflexivity.
  - intros d' H. destruct (value doc) as [| | | |s| | |]; try discriminate.
    destruct (in_strings (lower s) _) eqn:E; [|discriminate].
    inversion H. subst d'. cbn [value set_value].
    rewrite lower_twice, E. reflexivity.
  - intros d' H. destruct (value doc) as [| | | |s| | |]; try discriminate.
    destruct (in_strings (lower s) _) eqn:E; [|discriminate].
    inversion H. subst d'. cbn [value set_value].
    rewrite lower_twice, E. reflexivity.
  - intros Hn. destruct (value doc); try discriminate; split; reflexivity.
Qed.

Lemma policy_validators_spec_witness :
  validateCoreRegistrationPolicy
    (mkDoc None "core.registration_policy" (VStr "Closed"))
  = Ok (mkDoc None "core.registration_policy" (VStr "closed")) /\
  validateCoreRegistrationPolicy
    (mkDoc None "core.registration_policy" (VInt 1))
  = Raise AttributeError.
Proof.
  split.
  - apply (proj1 (proj1 (policy_validators_spec
                    (mkDoc None "core.registration_policy" (VStr "Closed")))
             "Closed" eq_refl)).
  - apply (proj1 (proj2 (proj2 (proj2 (policy_validators_spec
                    (mkDoc None "core.registration_policy" (VInt 1)))))
             eq_refl)).
Defined.

Lemma value_in_spec x l :
  value_in x l = true <-> exists s, x = VStr s /\ In s l.
Proof.
  unfold value_in, in_strings. split.
  - destruct x; try discriminate. intros H. apply existsb_exists in H.
    destruct H as (y & Hy & E). apply String.eqb_eq in E. subst y. eauto.
  - intros (s & -> & Hs). apply existsb_exists. exists s.
    split; [exact Hs|apply String.eqb_refl].
Qed.

(** X18.  The SMTP-encryption and default-folders validators compare the
    value itself with their words: whatever the value is, the document is
    either accepted unchanged, when the value is one of the words as
    written, or refused with the [ValidationException] on field
    ['value']; they raise nothing else and normalize nothing. *)
Theorem exact_validators_spec (doc : Doc) :
  ((validateCoreSmtpEncryption doc = Ok doc /\
    exists s, value doc = VStr s /\ In s ["none"; "starttls"; "ssl"]) \/
   (exists message,
      validateCoreSmtpEncryption doc
      = Raise (ValidationException message (Some "value"))) /\
    ~ exists s, value doc = VStr s /\ In s ["none"; "starttls"; "ssl"]) /\
  ((validateCoreUserDefaultFolders doc = Ok doc /\
    exists s, value doc = VStr s /\ In s ["public_private"; "none"]) \/
   (exists message,
      validateCoreUserDefaultFolders doc
      = Raise (ValidationException message (Some "value"))) /\
    ~ exists s, value doc = VStr s /\ In s ["public_private"; "none"]).
Proof.
  unfold validateCoreSmtpEncryption, validateCoreUserDefaultFolders.
  split.
  - destruct (value_in (value doc) ["none"; "starttls"; "ssl"]) eqn:E.
    + left. split; [reflexivity|]. apply value_in_spec, E.
    + right. split; [eexists; reflexivity|].
      intros H. apply value_in_spec in H. congruence.
  - destruct (value_in (value doc) ["public_private"; "none"]) eqn:E.
    + left. split; [reflexivity|]. apply value_in_spec, E.
    + right. split; [eexists; reflexivity|].
      intros H. apply value_in_spec in H. congruence.
Qed.

(** ** The collection-creation policy *)

Section PolicyFacts.

Variable load : string -> Value -> Result unit.
Variable ObjectId_of : Value -> Result ObjectId.

Lemma dict_get_set d k v : dict_get (dict_set d k v) k = Some v.
Proof.
  induction d as [|[k' v'] r IH]; simpl.
  - rewrite String.eqb_refl. reflexivity.
  - destruct (String.eqb k' k) eqn:E; simpl.
    + rewrite String.eqb_refl. reflexivity.
    + rewrite E. exact IH.
Qed.

Lemma dict_get_set_other d k v k' :
  k' <> k -> dict_get (dict_set d k v) k' = dict_get d k'.
Proof.
  intros Hne. induction d as [|[k0 v0] r IH]; simpl.
  - apply String.eqb_neq in Hne. rewrite String.eqb_sym, Hne. reflexivity.
  - destruct (String.eqb k0 k) eqn:E; simpl.
    + apply String.eqb_eq in E. subst k0.
      apply String.eqb_neq in Hne. rewrite String.eqb_sym, Hne.
      reflexivity.
    + destruct (String.eqb k0 k'); [reflexivity|exact IH].
Qed.

Lemma normalize_ids_resolved model l l' :
  normalize_ids load ObjectId_of model l = Ok l' ->
  Forall2 (resolved load ObjectId_of model) l l'.
Proof.
  revert l'. induction l as [|x r IH]; simpl; intros l' H.
  - inversion H. constructor.
  - destruct (load model x) as [[]|] eqn:El; [|discriminate]. simpl in H.
    destruct (ObjectId_of x) as [o|] eqn:Eo; [|discriminate]. simpl in H.
    destruct (normalize_ids load ObjectId_of model r) as [r'|];
      [|discriminate].
    simpl in H. inversion H. constructor; [|apply IH; reflexivity].
    split; [exact El|]. exists o. auto.
Qed.

(** An accepted field is a list of resolved identifiers in place of the
    list given, and no other entry of the dictionary is touched. *)
Lemma normalize_field_accepted model field d d' :
  normalize_field load ObjectId_of model field d = Ok d' ->
  (forall k, k <> field -> dict_get d' k = dict_get d k) /\
  (forall l, dict_get d field = Some (VList l) ->
     exists l', dict_get d' field = Some (VList l') /\
                Forall2 (resolved load ObjectId_of model) l l').
Proof.
  unfold normalize_field. intros H.
  destruct (dict_get d field) as [[| | | |s| |l|g]|] eqn:E; try discriminate.
  - destruct s as [|c s]; [|].
    + inversion H. subst d'. split; [reflexivity|]. intros l Hl. discriminate.
    + exfalso. destruct (load model _); [|discriminate]. simpl in H.
      destruct (ObjectId_of _); discriminate.
  - destruct (normalize_ids load ObjectId_of model l) as [l'|] eqn:El;
      [|discriminate].
    simpl in H. inversion H. subst d'. split.
    + intros k Hk. apply dict_get_set_other, Hk.
    + intros l0 Hl0. inversion Hl0. subst l0. exists l'.
      split; [apply dict_get_set|]. apply normalize_ids_resolved, El.
  - destruct g as [|[k v] g].
    + inversion H. subst d'. split; [reflexivity|]. intros l Hl. discriminate.
    + exfalso. destruct (load model _); discriminate.
  - inversion H. subst d'. split; [reflexivity|]. intros l Hl. discriminate.
Qed.

End PolicyFacts.

(** X19.  A policy that the collection-creation-policy validator accepts
    comes back as a dictionary that always has the ['open'] flag: the one
    given, or [False] when it was absent. *)
Theorem collection_create_policy_open
  (load : string -> Value -> Result unit)
  (ObjectId_of : Value -> Result ObjectId) (doc d' : Doc) :
  validateCoreCollectionCreatePolicy load ObjectId_of doc = Ok d' ->
  exists d dres,
    value doc = VDict d /\ value d' = VDict dres /\
    dict_get dres "open" = Some (default (VBool false) (dict_get d "open")).
Proof.
  unfold validateCoreCollectionCreatePolicy. intros H.
  destruct (value doc) as [| | | | | | |d] eqn:E; try discriminate.
  destruct (normalize_field load ObjectId_of "group" "groups" d)
    as [d1|] eqn:E1; [|discriminate].
  cbn [rbind] in H.
  destruct (normalize_field load ObjectId_of "user" "users" d1)
    as [d2|] eqn:E2; [|discriminate].
  cbn [rbind] in H. inversion H. subst d'.
  exists d, (dict_set d2 "open" (default (VBool false) (dict_get d2 "open"))).
  split; [reflexivity|]. split; [reflexivity|].
  rewrite dict_get_set.
  destruct (normalize_field_accepted load ObjectId_of _ _ _ _ E1) as [H1 _].
  destruct (normalize_field_accepted load ObjectId_of _ _ _ _ E2) as [H2 _].
  rewrite H2, H1 by discriminate. reflexivity.
Qed.

Lemma collection_create_policy_open_witness :
  exists d dres,
    VDict [] = VDict d /\ VDict [("open", VBool false)] = VDict dres /\
    dict_get dres "open" = Some (default (VBool false) (dict_get d "open")).
Proof.
  exact (collection_create_policy_open
           (fun _ _ => Ok tt) (fun _ => Raise InvalidId)
           (mkDoc None "core.collection_create_policy" (VDict []))
           (mkDoc None "core.collection_create_policy"
              (VDict [("open", VBool false)]))
           eq_refl).
Defined.

(** X20.  In a policy that the validator accepts, a list of groups or of
    users is replaced, entry by entry, by the [ObjectId]s of entities
    that were all found by the lookup: one identifier that does not
    resolve makes the validator fail. *)
Theorem collection_create_policy_resolved
  (load : string -> Value -> Result unit)
  (ObjectId_of : Value -> Result ObjectId) (doc d' : Doc)
  (d : list (string * Value)) :
  value doc = VDict d ->
  validateCoreCollectionCreatePolicy load ObjectId_of doc = Ok d' ->
  exists dres,
    value d' = VDict dres /\
    (forall l, dict_get d "groups" = Some (VList l) ->
       exists l', dict_get dres "groups" = Some (VList l') /\
                  Forall2 (resolved load ObjectId_of "group") l l') /\
    (forall l, dict_get d "users" = Some (VList l) ->
       exists l', dict_get dres "users" = Some (VList l') /\
                  Forall2 (resolved load ObjectId_of "user") l l').
Proof.
  unfold validateCoreCollectionCreatePolicy. intros E H. rewrite E in H.
  destruct (normalize_field load ObjectId_of "group" "groups" d)
    as [d1|] eqn:E1; [|discriminate].
  cbn [rbind] in H.
  destruct (normalize_field load ObjectId_of "user" "users" d1)
    as [d2|] eqn:E2; [|discriminate].
  cbn [rbind] in H. inversion H. subst d'.
  destruct (normalize_field_accepted load ObjectId_of _ _ _ _ E1)
    as [H1 G1].
  destruct (normalize_field_accepted load ObjectId_of _ _ _ _ E2)
    as [H2 G2].
  eexists. split; [reflexivity|]. split.
  - intros l Hl. destruct (G1 l Hl) as (l' & Hl' & Hres).
    exists l'. split; [|exact Hres].
    rewrite dict_get_set_other, H2 by discriminate. exact Hl'.
  - intros l Hl. rewrite <- H1 in Hl by discriminate.
    destruct (G2 l Hl) as (l' & Hl' & Hres).
    exists l'. split; [|exact Hres].
    rewrite dict_get_set_other by discriminate. exact Hl'.
Qed.

Lemma collection_create_policy_resolved_witness :
  exists dres,
    VDict [("groups", VList [VObjectId 9%N]); ("open", VBool true)]
    = VDict dres /\
    exists l', dict_get dres "groups" = Some (VList l').
Proof.
  destruct (collection_create_policy_resolved
              (fun _ _ => Ok tt)
              (fun x => match x with
                        | VStr "9" => Ok 9%N
                        | _ => Raise InvalidId
                        end)
              (mkDoc None "core.collection_create_policy"
                 (VDict [("groups", VList [VStr "9"]);
                         ("open", VBool true)]))
              (mkDoc None "core.collection_create_policy"
                 (VDict [("groups", VList [VObjectId 9%N]);
                         ("open", VBool true)]))
              [("groups", VList [VStr "9"]); ("open", VBool true)]
              eq_refl eq_refl)
    as (dres & Hd & Hg & _).
  exists dres. split; [exact Hd|].
  destruct (Hg [VStr "9"] eq_refl) as (l' & Hl' & _).
  exists l'. exact Hl'.
Defined.
